(** * SlackChatExport: a shallow embedding of [src/app.ts]

    The export pipeline of the Slack bot ([processExportAsync] and the
    helpers it calls) is embedded as Rocq functions.  Dates are JavaScript
    time values (milliseconds since the epoch, an integer); the process is
    taken to run in UTC, as the comment on [parseDateTime] in the source
    assumes.  Remote calls are answered by a [remote] record, and every
    observable effect (notices sent with [respond], API calls, sleeps, file
    writes, uploads) is appended to a trace.  Writing to the console is left
    out, and [respond], the file system and the upload are taken to succeed.
    Numbers are kept exact: the integers involved are far below 2^53 and a
    Slack [ts] has six decimals, which doubles keep apart. *)

From Stdlib Require Import ZArith QArith Lia List Ascii String Bool Permutation Sorted.
From stdpp Require Import base list gmap strings pretty.

Local Open Scope Z_scope.

(** ** JavaScript primitives used by the source *)

Module JS.

(** Truthiness of a possibly [undefined] string: [undefined] and the empty
    string are falsy. *)
Definition truthy (v : option string) : bool :=
  match v with
  | Some s => negb (String.eqb s "")
  | None => false
  end.

(** [a || b] on possibly undefined strings. *)
Definition or (a b : option string) : option string :=
  if truthy a then a else b.

(** [a || d] where [d] is a string literal. *)
Definition or_default (a : option string) (d : string) : string :=
  match a with
  | Some s => if String.eqb s "" then d else s
  | None => d
  end.

(** [n || d] on a possibly undefined number: [0] is falsy as well. *)
Definition or_number (n : option Z) (d : Z) : Z :=
  match n with
  | Some v => if v =? 0 then d else v
  | None => d
  end.

(** [hay.includes(needle)]. *)
Fixpoint includes (needle hay : string) : bool :=
  String.prefix needle hay ||
  match hay with
  | EmptyString => false
  | String _ rest => includes needle rest
  end.

(** [xs.findIndex(p)]; [None] stands for [-1]. *)
Fixpoint findIndex {A} (p : A -> bool) (xs : list A) : option nat :=
  match xs with
  | [] => None
  | x :: rest => if p x then Some O else option_map S (findIndex p rest)
  end.

(** [xs.splice(i, 0, ...ys)]. *)
Definition splice {A} (xs : list A) (i : nat) (ys : list A) : list A :=
  firstn i xs ++ ys ++ skipn i xs.

(** [xs.join(sep)]. *)
Fixpoint join (sep : string) (xs : list string) : string :=
  match xs with
  | [] => ""
  | [x] => x
  | x :: rest => x +:+ sep +:+ join sep rest
  end.

Definition digit_val (c : ascii) : option Z :=
  let n := Z.of_N (N_of_ascii c) in
  if (48 <=? n) && (n <=? 57) then Some (n - 48) else None.

Definition digit_char (d : Z) : ascii :=
  ascii_of_N (Z.to_N (48 + d mod 10)).

(** Leading decimal digits of a string, read as a number with [acc] as the
    digits read so far; returns the value, the digit count and the rest. *)
Fixpoint read_digits (s : string) (acc : Z) (n : nat) : Z * nat * string :=
  match s with
  | String c rest =>
      match digit_val c with
      | Some d => read_digits rest (10 * acc + d) (S n)
      | None => (acc, n, s)
      end
  | EmptyString => (acc, n, s)
  end.

(** [parseFloat] on unsigned decimal numerals [digits[.digits]] (the shape
    of Slack's [ts]); the value is kept exact.  [None] is [NaN].  Trailing
    characters are ignored, as [parseFloat] does. *)
Definition parseFloat (s : string) : option Q :=
  let '(ip, ni, rest) := read_digits s 0 O in
  match rest with
  | String "." frac =>
      let '(fp, nf, _) := read_digits frac 0 O in
      match ni, nf with
      | O, O => None
      | _, _ => Some (Qmake (ip * 10 ^ Z.of_nat nf + fp)
                            (Z.to_pos (10 ^ Z.of_nat nf)))
      end
  | _ => match ni with O => None | _ => Some (inject_Z ip) end
  end.

(** [Math.ceil(a / b)] for integers [a] and positive [b]. *)
Definition ceil_div (a b : Z) : Z := - ((- a) / b).

(** [Math.floor(a / b)]. *)
Definition floor_div (a b : Z) : Z := a / b.

(** [new Date(x)] for a number [x]: the time value is [x] truncated to an
    integer; [new Date(NaN)] is an invalid date, here [None]. *)
Definition newDate (x : option Q) : option Z :=
  match x with
  | Some q => Some (Z.quot (Qnum q) (Z.pos (Qden q)))
  | None => None
  end.

End JS.

(** ** The functions of date-fns the source imports

    date-fns is a dependency of the repository and not part of it.  Its
    functions are modelled on time values, with the local time zone equal to
    UTC.  Calendar fields follow ECMAScript's proleptic Gregorian calendar. *)

Module DateFns.

Definition msPerDay : Z := 86400000.

Definition isLeap (y : Z) : bool :=
  (y mod 4 =? 0) && (negb (y mod 100 =? 0) || (y mod 400 =? 0)).

Definition daysInMonth (y m : Z) : Z :=
  if m =? 2 then (if isLeap y then 29 else 28)
  else if (m =? 4) || (m =? 6) || (m =? 9) || (m =? 11) then 30
  else 31.

(** Day number (days since 1970-01-01) of a calendar date. *)
Definition days_from_civil (y m d : Z) : Z :=
  let y' := if m <=? 2 then y - 1 else y in
  let era := y' / 400 in
  let yoe := y' mod 400 in
  let mp := (m + 9) mod 12 in
  let doy := (153 * mp + 2) / 5 + d - 1 in
  let doe := yoe * 365 + yoe / 4 - yoe / 100 + doy in
  era * 146097 + doe - 719468.

(** Calendar date of a day number. *)
Definition civil_from_days (z0 : Z) : Z * Z * Z :=
  let z := z0 + 719468 in
  let era := z / 146097 in
  let doe := z mod 146097 in
  let yoe := (doe - doe / 1460 + doe / 36524 - doe / 146096) / 365 in
  let doy := doe - (365 * yoe + yoe / 4 - yoe / 100) in
  let mp := (5 * doy + 2) / 153 in
  let d := doy - (153 * mp + 2) / 5 + 1 in
  let m := if mp <? 10 then mp + 3 else mp - 9 in
  (yoe + era * 400 + (if m <=? 2 then 1 else 0), m, d).

(** Calendar fields of a [Date]. *)
Record fields := mkFields {
  year : Z; month : Z; day : Z; hours : Z; minutes : Z; seconds : Z
}.

Definition validDate (y m d : Z) : bool :=
  (1 <=? m) && (m <=? 12) && (1 <=? d) && (d <=? daysInMonth y m).

(** [validateTime] of date-fns: 24:00:00 is accepted. *)
Definition validTime (h mi s : Z) : bool :=
  if h =? 24 then (mi =? 0) && (s =? 0)
  else (0 <=? s) && (s <? 60) && (0 <=? mi) && (mi <? 60)
       && (0 <=? h) && (h <? 25).

(** Time value of local calendar fields. *)
Definition timeOfFields (f : fields) : Z :=
  days_from_civil (year f) (month f) (day f) * msPerDay
  + hours f * 3600000 + minutes f * 60000 + seconds f * 1000.

(** [getFullYear], [getMonth]+1, [getDate], [getHours], [getMinutes],
    [getSeconds] of a time value. *)
Definition fieldsOfTime (t : Z) : fields :=
  let '(y, m, d) := civil_from_days (t / msPerDay) in
  let r := t mod msPerDay in
  mkFields y m d (r / 3600000) ((r mod 3600000) / 60000)
           ((r mod 60000) / 1000).

(** [addHours(date, amount)]. *)
Definition addHours (t : Z) (amount : Z) : Z := t + amount * 3600000.

(** [addLeadingZeros(n, 2)] and [addLeadingZeros(n, 4)] for the ranges the
    fields take. *)
Definition pad2 (n : Z) : string :=
  String (JS.digit_char (n / 10)) (String (JS.digit_char n) "").

Definition pad4 (n : Z) : string :=
  String (JS.digit_char (n / 1000)) (String (JS.digit_char (n / 100))
    (String (JS.digit_char (n / 10)) (String (JS.digit_char n) ""))).

(** The [yyyy] token prints the year of the era: year 0 and below are
    counted backwards from 1. *)
Definition yyyy (y : Z) : string := pad4 (if 0 <? y then y else 1 - y).

(** [format(date, 'yyyy-MM-dd')]. *)
Definition format_date (t : Z) : string :=
  let f := fieldsOfTime t in
  yyyy (year f) +:+ "-" +:+ pad2 (month f) +:+ "-" +:+ pad2 (day f).

(** [format(date, 'yyyyMMdd')]. *)
Definition format_compact (t : Z) : string :=
  let f := fieldsOfTime t in
  yyyy (year f) +:+ pad2 (month f) +:+ pad2 (day f).

(** [format(date, 'yyyy-MM-dd HH:mm:ss')]. *)
Definition format_datetime (t : Z) : string :=
  let f := fieldsOfTime t in
  format_date t +:+ " " +:+ pad2 (hours f) +:+ ":" +:+ pad2 (minutes f)
    +:+ ":" +:+ pad2 (seconds f).

Definition num2 (a b : ascii) : option Z :=
  match JS.digit_val a, JS.digit_val b with
  | Some x, Some y => Some (10 * x + y)
  | _, _ => None
  end.

Definition num4 (a b c d : ascii) : option Z :=
  match num2 a b, num2 c d with
  | Some x, Some y => Some (100 * x + y)
  | _, _ => None
  end.

(** The date part [YYYY-MM-DD]. *)
Definition parseDatePart (s : string) : option (Z * Z * Z) :=
  match s with
  | String y1 (String y2 (String y3 (String y4 (String sep1
      (String m1 (String m2 (String sep2 (String d1 (String d2 "")))))))))
    => if (Ascii.eqb sep1 "-" && Ascii.eqb sep2 "-")%bool
       then match num4 y1 y2 y3 y4, num2 m1 m2, num2 d1 d2 with
            | Some y, Some m, Some d =>
                if validDate y m d then Some (y, m, d) else None
            | _, _, _ => None
            end
       else None
  | _ => None
  end.

(** The time part [HH:mm] or [HH:mm:ss]. *)
Definition parseTimePart (s : string) : option (Z * Z * Z) :=
  match s with
  | String h1 (String h2 (String ":" (String m1 (String m2 rest)))) =>
      match num2 h1 h2, num2 m1 m2 with
      | Some h, Some mi =>
          match rest with
          | "" => if validTime h mi 0 then Some (h, mi, 0) else None
          | String ":" (String s1 (String s2 "")) =>
              match num2 s1 s2 with
              | Some s => if validTime h mi s then Some (h, mi, s) else None
              | None => None
              end
          | _ => None
          end
      | _, _ => None
      end
  | _ => None
  end.

(** Split at every [T] or space, as [splitDateString] does. *)
Definition isDelimiter (c : ascii) : bool :=
  (Ascii.eqb c "T" || Ascii.eqb c " ")%bool.

Fixpoint splitDateTime (s : string) : list string :=
  match s with
  | EmptyString => [""%string]
  | String c rest =>
      if isDelimiter c then ""%string :: splitDateTime rest
      else match splitDateTime rest with
           | segment :: segments => String c segment :: segments
           | [] => [String c ""]
           end
  end.

(** [parseISO] followed by [isValid], on the extended calendar forms
    [YYYY-MM-DD] and [YYYY-MM-DD(T| )HH:mm[:ss]] without a zone
    designator; [None] is an invalid date.  A string with more than one
    date/time delimiter is invalid in date-fns too. *)
Definition parseISO (s : string) : option Z :=
  match splitDateTime s with
  | [d] =>
      match parseDatePart d with
      | Some (y, m, dd) => Some (timeOfFields (mkFields y m dd 0 0 0))
      | None => None
      end
  | [d; t] =>
      match parseDatePart d, parseTimePart t with
      | Some (y, m, dd), Some (h, mi, sec) =>
          Some (timeOfFields (mkFields y m dd h mi sec))
      | _, _ => None
      end
  | _ => None
  end.

End DateFns.

(** ** Data model *)

(** A Slack message as the export reads it: [ts], [user], [text] and
    [thread_ts]; the last three may be missing. *)
Record message := mkMessage {
  ts : string;
  user : option string;
  text : option string;
  thread_ts : option string
}.

(** An entry of [users.list]. *)
Record member := mkMember {
  member_id : string;
  real_name : option string;
  member_name : option string
}.

(** One page of [conversations.history]: [result.messages] and
    [result.response_metadata?.next_cursor]. *)
Record page := mkPage {
  page_messages : option (list message);
  next_cursor : option string
}.

(** A value thrown by a remote call: [code] and [retryAfter] as the Slack
    client sets them, and [error.message] when the value is an [Error]. *)
Record error := mkError {
  code : option string;
  retryAfter : option Z;
  error_message : option string
}.

Inductive outcome (A : Type) : Type :=
| Returned (a : A)
| Raised (e : error).
Arguments Returned {A} a.
Arguments Raised {A} e.

(** The remote collaborators of one export.  The history and replies
    endpoints are indexed by the number of calls made so far, so that a call
    and its retry may be answered differently. *)
Record remote := mkRemote {
  history_api : nat -> option string -> outcome page;
  replies_api : nat -> string -> outcome (option (list message));
  users_api : outcome (option (list member));
  info_api : outcome (option string);
  now : Z;
  domain : string
}.

(** The slash command: [command.text] and [command.channel_id]. *)
Record command := mkCommand {
  command_text : string;
  channel_id : string
}.

(** The tailored part of the message sent from the top-level handler. *)
Inductive failure := MissingScope | ChannelNotFound | RateLimited | Unclassified.

(** The ephemeral messages sent with [respond], with the numbers their
    templates interpolate. *)
Inductive notice :=
| Usage
| InvalidFormat
| InvalidRange
| Exporting
| NoMessages
| ThreadEstimate (threads minutes : Z)
| Progress (processed threads minutes : Z)
| ThreadsDone (threads : Z)
| ThreadsSkipped (threads : Z)
| Failed (f : failure).

Inductive event :=
| Respond (n : notice)
| CallHistory (channel oldest latest : string) (cursor : option string)
| CallReplies (channel thread : string)
| CallUsersList
| CallChannelInfo (channel : string)
| Sleep (ms : Z)
| EnsureExportsDir
| WriteFile (name content : string)
| Upload (channel filename title comment : string).

Record state := mkState {
  trace : list event;
  historyCalls : nat;
  repliesCalls : nat
}.

Definition initial : state := mkState [] O O.

(** ** Renderer ([formatMessage], [formatMessageMarkdown]) *)

(** [users.get(message.user)]: a missing [user] finds nothing. *)
Definition usersGet (users : gmap string string) (u : option string)
  : option string :=
  match u with
  | Some id => users !! id
  | None => None
  end.

(** [users.get(message.user) || message.user || 'Unknown User']. *)
Definition userName (m : message) (users : gmap string string) : string :=
  JS.or_default (JS.or (usersGet users (user m)) (user m)) "Unknown User".

(** [format(addHours(new Date(parseFloat(message.ts) * 1000), 9), ...)];
    [format] throws on an invalid date, here [None]. *)
Definition formattedTime (m : message) : option string :=
  match JS.newDate (option_map (fun seconds => Qmult seconds (inject_Z 1000))
                               (JS.parseFloat (ts m))) with
  | Some timestamp =>
      Some (DateFns.format_datetime (DateFns.addHours timestamp 9))
  | None => None
  end.

Definition formatMessage (m : message) (users : gmap string string)
  (indent : string) : option string :=
  match formattedTime m with
  | Some time =>
      Some (indent +:+ "[" +:+ time +:+ "] " +:+ userName m users +:+ ": "
            +:+ JS.or_default (text m) "")
  | None => None
  end.

Definition newline : string := String "010" "".
Definition backtick : string := String "096" "".

Definition formatMessageMarkdown (m : message) (users : gmap string string)
  (indent : string) : option string :=
  match formattedTime m with
  | Some time =>
      let name := userName m users in
      let body := JS.or_default (text m) "" in
      if String.eqb indent ""
      then Some ("### " +:+ name +:+ " " +:+ backtick +:+ time +:+ backtick
                 +:+ newline +:+ newline +:+ body +:+ newline)
      else Some (indent +:+ "> **" +:+ name +:+ "** " +:+ backtick +:+ time
                 +:+ backtick +:+ newline +:+ indent +:+ "> " +:+ body
                 +:+ newline)
  | None => None
  end.

(** ** Effects: a state and exception monad over the trace *)

Inductive result (A : Type) : Type :=
| Done (a : A)
| Throw (e : error)
| Diverge.
Arguments Done {A} a.
Arguments Throw {A} e.
Arguments Diverge {A}.

Definition M (A : Type) : Type := state -> result A * state.

#[export] Instance M_ret : MRet M := fun A a st => (Done a, st).

#[export] Instance M_bind : MBind M := fun A B k c st =>
  match c st with
  | (Done a, st') => k a st'
  | (Throw e, st') => (Throw e, st')
  | (Diverge, st') => (Diverge, st')
  end.

Definition throw {A} (e : error) : M A := fun st => (Throw e, st).

Definition diverge {A} : M A := fun st => (Diverge, st).

(** [try { c } catch (e) { h e }]. *)
Definition try_catch {A} (c : M A) (h : error -> M A) : M A := fun st =>
  match c st with
  | (Throw e, st') => h e st'
  | other => other
  end.

Definition emit (e : event) : M unit := fun st =>
  (Done tt, mkState (trace st ++ [e]) (historyCalls st) (repliesCalls st)).

Definition respond (n : notice) : M unit := emit (Respond n).

Definition sleep (ms : Z) : M unit := emit (Sleep ms).

Definition settle {A} (o : outcome A) : M A :=
  match o with
  | Returned a => mret a
  | Raised e => throw e
  end.

(** [client.conversations.replies({channel, ts, limit: 1000})]. *)
Definition conversationsReplies (client : remote) (channelId threadTs : string)
  : M (option (list message)) := fun st =>
  settle (replies_api client (repliesCalls st) threadTs)
    (mkState (trace st ++ [CallReplies channelId threadTs])
             (historyCalls st) (S (repliesCalls st))).

(** [client.conversations.history({channel, oldest, latest, limit: 200,
    cursor})]. *)
Definition conversationsHistory (client : remote)
  (channelId oldest latest : string) (cursor : option string) : M page :=
  fun st =>
  settle (history_api client (historyCalls st) cursor)
    (mkState (trace st ++ [CallHistory channelId oldest latest cursor])
             (S (historyCalls st)) (repliesCalls st)).

(** [format] of an invalid date throws a [RangeError]. *)
Definition rangeError : error := mkError None None (Some "Invalid time value").

Definition orThrow {A} (o : option A) : M A :=
  match o with
  | Some a => mret a
  | None => throw rangeError
  end.

Fixpoint mapThrow {A B} (f : A -> option B) (xs : list A) : M (list B) :=
  match xs with
  | [] => mret []
  | x :: rest => y ← orThrow (f x); ys ← mapThrow f rest; mret (y :: ys)
  end.

(** ** Rate-limited reply fetcher ([getThreadReplies]) *)

(** [messages && messages.length > 1 ? messages.slice(1) : nothing]. *)
Definition sliceReplies (messages : option (list message))
  : option (list message) :=
  match messages with
  | Some (_ :: (_ :: _) as replies) => Some replies
  | _ => None
  end.

Definition getThreadReplies (client : remote) (channelId threadTs : string)
  : M (list message) :=
  try_catch
    (sleep 5000;;
     result ← conversationsReplies client channelId threadTs;
     mret (default [] (sliceReplies result)))
    (fun error =>
       if decide (code error = Some "slack_webapi_rate_limited")
       then
         let retryAfter := JS.or_number (retryAfter error) 60 in
         sleep (retryAfter * 1000);;
         retried ← try_catch
           (retryResult ← conversationsReplies client channelId threadTs;
            mret (sliceReplies retryResult))
           (fun retryError => mret None);
         mret (default [] retried)
       else mret []).

(** ** User directory ([getUsersInfo]) *)

Definition setMember (users : gmap string string) (m : member)
  : gmap string string :=
  <[member_id m :=
      JS.or_default (JS.or (real_name m) (member_name m)) (member_id m)]> users.

Definition getUsersInfo (client : remote) : M (gmap string string) :=
  try_catch
    (emit CallUsersList;;
     result ← settle (users_api client);
     mret (foldl setMember ∅ (default [] result)))
    (fun error => mret ∅).

(** ** Time window ([parseDateTime]) *)

Definition isoString (dateStr : string) : string :=
  if JS.includes "T" dateStr then dateStr else dateStr +:+ "T00:00:00".

Definition parseDateTime (dateStr : string) : option Z :=
  match DateFns.parseISO (isoString dateStr) with
  | Some date => Some (DateFns.addHours date (-9))
  | None => None
  end.

(** [command.text.trim().split(/\s+/)]: splitting the empty string gives
    one empty token. *)
Definition splitArgs (text : string) : list string :=
  match String.words text with
  | [] => [""]
  | args => args
  end.

(** ** Paginated fetch (the [do ... while (cursor)] loop)

    The loop has no bound in the source; [fuel] bounds the number of pages
    the model fetches and running out of it is [Diverge]. *)

Fixpoint fetchHistory (fuel : nat) (client : remote)
  (channelId startTs endTs : string) (cursor : option string)
  (messages : list message) : M (list message) :=
  match fuel with
  | O => diverge
  | S fuel' =>
      result ← conversationsHistory client channelId startTs endTs cursor;
      let messages' := messages ++ default [] (page_messages result) in
      let cursor' := next_cursor result in
      if JS.truthy cursor'
      then fetchHistory fuel' client channelId startTs endTs cursor' messages'
      else mret messages'
  end.

(** ** Chronological sort ([messages.sort((a, b) => parseFloat(a.ts) -
    parseFloat(b.ts))])

    The comparator is non-positive when the first key is not above the
    second; a [NaN] difference counts as zero.  [Array.prototype.sort] is
    stable, as is this insertion sort. *)

Definition tsLe (a b : message) : bool :=
  match JS.parseFloat (ts a), JS.parseFloat (ts b) with
  | Some x, Some y => Qle_bool x y
  | _, _ => true
  end.

Fixpoint insertByTs (m : message) (sorted : list message) : list message :=
  match sorted with
  | [] => [m]
  | x :: rest => if tsLe m x then m :: x :: rest else x :: insertByTs m rest
  end.

Fixpoint sortByTs (messages : list message) : list message :=
  match messages with
  | [] => []
  | m :: rest => insertByTs m (sortByTs rest)
  end.

(** ** Thread reassembly *)

(** [msg.thread_ts && msg.thread_ts === msg.ts]. *)
Definition isThreadParent (msg : message) : bool :=
  JS.truthy (thread_ts msg) && bool_decide (thread_ts msg = Some (ts msg)).

(** The two renderings and the running count. *)
Record transcript := mkTranscript {
  allMessages : list string;
  allMessagesMarkdown : list string;
  totalMessageCount : Z
}.

Definition replyIndent : string := "  └─ ".

(** Lines 373-383: add the reply count, look the parent up and splice. *)
Definition spliceReplies (users : gmap string string) (msg : message)
  (replies : list message) (t : transcript) : M transcript :=
  let total := totalMessageCount t + Z.of_nat (length replies) in
  match JS.findIndex (fun m => JS.includes (ts msg) m) (allMessages t) with
  | Some parentIndex =>
      replyTexts ← mapThrow (fun reply => formatMessage reply users replyIndent) replies;
      replyMarkdowns ← mapThrow (fun reply => formatMessageMarkdown reply users "  ") replies;
      mret (mkTranscript
              (JS.splice (allMessages t) (S parentIndex) replyTexts)
              (JS.splice (allMessagesMarkdown t) (S parentIndex) replyMarkdowns)
              total)
  | None => mret (mkTranscript (allMessages t) (allMessagesMarkdown t) total)
  end.

(** Lines 386-396: after thread [i] (from 0) of [n]. *)
Definition reportProgress (i n : Z) : M unit :=
  if ((i + 1) mod 10 =? 0) || (i =? n - 1)
  then
    if ((i + 1) mod 10 =? 0) && (i <? n - 1)
    then respond (Progress (i + 1) n (JS.ceil_div ((n - i - 1) * 5) 60))
    else mret tt
  else mret tt.

(** The [for] loop over [threadMessages], from index [i] on; [n] is
    [threadMessages.length] and [rest] the parents not yet processed. *)
Fixpoint threadLoop (client : remote) (channelId : string)
  (users : gmap string string) (rest : list message) (i n : Z)
  (t : transcript) : M transcript :=
  match rest with
  | [] => mret t
  | msg :: rest' =>
      replies ← getThreadReplies client channelId (default "" (thread_ts msg));
      t' ← spliceReplies users msg replies t;
      reportProgress i n;;
      threadLoop client channelId users rest' (i + 1) n t'
  end.

(** ** Artifacts *)

Definition repeat_string (s : string) (n : nat) : string :=
  fold_right String.append "" (repeat s n).

Definition headerText (channelName : string) (jstStartDate jstEndDate jstNow : Z)
  (total : Z) : string :=
  "# " +:+ channelName +:+ " チャット履歴" +:+ newline
  +:+ "エクスポート期間: " +:+ DateFns.format_date jstStartDate +:+ " ～ "
  +:+ DateFns.format_date jstEndDate +:+ " (JST)" +:+ newline
  +:+ "エクスポート日時: " +:+ DateFns.format_datetime jstNow +:+ " (JST)"
  +:+ newline
  +:+ "メッセージ数: " +:+ pretty total +:+ "件 (スレッド返信含む)"
  +:+ newline +:+ newline
  +:+ repeat_string "=" 50 +:+ newline +:+ newline.

Definition headerMarkdown (channelName : string)
  (jstStartDate jstEndDate jstNow : Z) (total : Z) : string :=
  "# " +:+ channelName +:+ " チャット履歴" +:+ newline +:+ newline
  +:+ "**エクスポート期間**: " +:+ DateFns.format_date jstStartDate +:+ " ～ "
  +:+ DateFns.format_date jstEndDate +:+ " (JST)" +:+ newline
  +:+ "**エクスポート日時**: " +:+ DateFns.format_datetime jstNow +:+ " (JST)"
  +:+ newline
  +:+ "**メッセージ数**: " +:+ pretty total +:+ "件 (スレッド返信含む)"
  +:+ newline +:+ newline
  +:+ "---" +:+ newline +:+ newline.

Definition baseFileName (channelName : string) (jstStartDate jstEndDate : Z)
  : string :=
  channelName +:+ "_" +:+ DateFns.format_compact jstStartDate +:+ "-"
  +:+ DateFns.format_compact jstEndDate.

Definition uploadTitle (channelName : string) (jstStartDate jstEndDate : Z)
  : string :=
  channelName +:+ " チャット履歴 (" +:+ DateFns.format_date jstStartDate
  +:+ " ～ " +:+ DateFns.format_date jstEndDate +:+ " JST)".

Definition uploadComment (client : remote) (jstStartDate jstEndDate : Z)
  (total : Z) (txtFileName mdFileName : string) : string :=
  "チャット履歴のエクスポートが完了しました！" +:+ newline +:+ newline
  +:+ "📅 **期間**: " +:+ DateFns.format_date jstStartDate +:+ " ～ "
  +:+ DateFns.format_date jstEndDate +:+ " (JST)" +:+ newline
  +:+ "💬 **メッセージ数**: " +:+ pretty total +:+ "件 (スレッド返信含む)"
  +:+ newline +:+ newline
  +:+ "📥 **ダウンロードリンク**:" +:+ newline
  +:+ "・ テキスト形式: https://" +:+ domain client +:+ "/download/"
  +:+ txtFileName +:+ newline
  +:+ "・ Markdown形式: https://" +:+ domain client +:+ "/download/"
  +:+ mdFileName +:+ newline
  +:+ "・ ファイル一覧: https://" +:+ domain client +:+ "/files".

(** Lines 332-338: the channel's name, its id when the name is empty or
    missing, ['unknown-channel'] when the lookup throws. *)
Definition getChannelName (client : remote) (channelId : string) : M string :=
  try_catch
    (emit (CallChannelInfo channelId);;
     name ← settle (info_api client);
     mret (JS.or_default name channelId))
    (fun error => mret "unknown-channel").

(** Lines 340-412: render the primary messages, then process or skip the
    threads. *)
Definition assemble (client : remote) (channelId : string)
  (users : gmap string string) (messages : list message) (skipThreads : bool)
  : M transcript :=
  let threadMessages := filter (fun msg => isThreadParent msg = true) messages in
  let n := Z.of_nat (length threadMessages) in
  texts ← mapThrow (fun msg => formatMessage msg users "") messages;
  markdowns ← mapThrow (fun msg => formatMessageMarkdown msg users "") messages;
  let t := mkTranscript texts markdowns (Z.of_nat (length messages)) in
  if (0 <? n) && negb skipThreads
  then
    respond (ThreadEstimate n (JS.ceil_div (n * 5) 60));;
    t' ← threadLoop client channelId users threadMessages 0 n t;
    respond (ThreadsDone n);;
    mret t'
  else if skipThreads && (0 <? n)
  then respond (ThreadsSkipped n);; mret t
  else mret t.

(** Lines 414-464: headers, the two files and the upload. *)
Definition deliver (client : remote) (channelId channelName : string)
  (startDate endDate : Z) (t : transcript) : M unit :=
  let jstNow := DateFns.addHours (now client) 9 in
  let jstStartDate := DateFns.addHours startDate 9 in
  let jstEndDate := DateFns.addHours endDate 9 in
  let total := totalMessageCount t in
  let contentText :=
    headerText channelName jstStartDate jstEndDate jstNow total
    +:+ JS.join newline (allMessages t) in
  let contentMarkdown :=
    headerMarkdown channelName jstStartDate jstEndDate jstNow total
    +:+ JS.join newline (allMessagesMarkdown t) in
  let base := baseFileName channelName jstStartDate jstEndDate in
  let txtFileName := base +:+ ".txt" in
  let mdFileName := base +:+ ".md" in
  emit EnsureExportsDir;;
  emit (WriteFile txtFileName contentText);;
  emit (WriteFile mdFileName contentMarkdown);;
  emit (Upload channelId txtFileName
          (uploadTitle channelName jstStartDate jstEndDate)
          (uploadComment client jstStartDate jstEndDate total
             txtFileName mdFileName)).

(** Lines 276-464: the export of a resolved window. *)
Definition exportWindow (fuel : nat) (client : remote) (cmd : command)
  (skipThreads : bool) (startDate endDate : Z) : M unit :=
  respond Exporting;;
  let channelId := channel_id cmd in
  let startTs := pretty (JS.floor_div startDate 1000) in
  let endTs := pretty (JS.floor_div endDate 1000) in
  fetched ← fetchHistory fuel client channelId startTs endTs None [];
  match fetched with
  | [] => respond NoMessages
  | _ :: _ =>
      let messages := sortByTs fetched in
      users ← getUsersInfo client;
      channelName ← getChannelName client channelId;
      t ← assemble client channelId users messages skipThreads;
      deliver client channelId channelName startDate endDate t
  end.

(** The top-level handler's classification of a failure. *)
Definition classify (e : error) : failure :=
  match error_message e with
  | Some msg =>
      if JS.includes "missing_scope" msg then MissingScope
      else if JS.includes "channel_not_found" msg then ChannelNotFound
      else if JS.includes "rate_limited" msg then RateLimited
      else Unclassified
  | None => Unclassified
  end.

(** [processExportAsync(command, respond, client)]. *)
Definition processExportAsync (fuel : nat) (client : remote) (cmd : command)
  : M unit :=
  try_catch
    (let args := splitArgs (command_text cmd) in
     match args with
     | startDateStr :: endDateStr :: _ =>
         let skipThreads := existsb (String.eqb "--no-threads") args in
         match parseDateTime startDateStr, parseDateTime endDateStr with
         | Some startDate, Some endDate =>
             if endDate <=? startDate
             then respond InvalidRange
             else exportWindow fuel client cmd skipThreads startDate endDate
         | _, _ => respond InvalidFormat
         end
     | _ => respond Usage
     end)
    (fun error => respond (Failed (classify error))).

(** * Vocabulary of the statements *)

(** What one reply call leaves the caller with: the replies past the root,
    nothing when the call throws. *)
Definition repliesOfCall (o : outcome (option (list message)))
  : list message :=
  match o with
  | Returned messages => default [] (sliceReplies messages)
  | Raised _ => []
  end.

Definition rateLimited (e : error) : Prop :=
  code e = Some "slack_webapi_rate_limited"%string.

(** A client whose replies endpoint always signals a rate limit with
    [retryAfter] 0. *)
Definition retryAfterZero : remote :=
  mkRemote (fun _ _ => Returned (mkPage None None))
           (fun _ _ => Raised (mkError (Some "slack_webapi_rate_limited"%string)
                                       (Some 0) None))
           (Returned None) (Returned None) 0 "".

(** A client rate limited on the first reply call (retry after 2 seconds)
    whose retry returns the root and two replies. *)
Definition limitedOnce : remote :=
  mkRemote (fun _ _ => Returned (mkPage None None))
           (fun k _ =>
              match k with
              | O => Raised (mkError (Some "slack_webapi_rate_limited"%string)
                                     (Some 2) None)
              | S _ => Returned (Some
                  [mkMessage "1704067200.000100" (Some "U1") (Some "root")
                             (Some "1704067200.000100"%string);
                   mkMessage "1704067260.000200" (Some "U2") (Some "one")
                             (Some "1704067200.000100"%string);
                   mkMessage "1704067320.000300" (Some "U1") (Some "two")
                             (Some "1704067200.000100"%string)])
              end)
           (Returned None) (Returned None) 0 "".

(** The pages a run of the fetch loop receives when it starts with call
    number [k] and cursor [cursor], up to the first page without a usable
    next cursor. *)
Inductive pagesFrom (client : remote)
  : nat -> option string -> list page -> Prop :=
| pages_last k cursor p :
    history_api client k cursor = Returned p ->
    JS.truthy (next_cursor p) = false ->
    pagesFrom client k cursor [p]
| pages_more k cursor p ps :
    history_api client k cursor = Returned p ->
    JS.truthy (next_cursor p) = true ->
    pagesFrom client (S k) (next_cursor p) ps ->
    pagesFrom client k cursor (p :: ps).

Definition messagesOf (ps : list page) : list message :=
  concat (map (fun p => default [] (page_messages p)) ps).

(** A history endpoint whose next cursor alternates between two values. *)
Definition oscillating : remote :=
  mkRemote (fun k _ => Returned (mkPage (Some [])
                         (Some (if Nat.even k then "A" else "B")%string)))
           (fun _ _ => Returned None) (Returned None) (Returned None) 0 "".

(** A history endpoint with nothing in range. *)
Definition nothingInRange : remote :=
  mkRemote (fun _ _ => Returned (mkPage (Some []) None))
           (fun _ _ => Returned None) (Returned None) (Returned None) 0 "".


(** The events a run added to the trace. *)
Definition emitted (before after : state) : list event :=
  drop (length (trace before)) (trace after).

(** Ten thread parents, one a minute, and a client whose threads have no
    replies. *)
Definition tenParents : list message :=
  map (fun stamp => mkMessage stamp (Some "U1"%string) (Some "topic"%string)
                              (Some stamp))
      ["1704067200.000100"; "1704067260.000100"; "1704067320.000100";
       "1704067380.000100"; "1704067440.000100"; "1704067500.000100";
       "1704067560.000100"; "1704067620.000100"; "1704067680.000100";
       "1704067740.000100"]%string.

Definition noReplies : remote :=
  mkRemote (fun _ _ => Returned (mkPage (Some tenParents) None))
           (fun _ _ => Returned None) (Returned None) (Returned None) 0 "".

Definition elevenParents : list message :=
  tenParents ++ [mkMessage "1704067800.000100" (Some "U1"%string)
                           (Some "topic"%string)
                           (Some "1704067800.000100"%string)].

Definition emptyTranscript : transcript := mkTranscript [] [] 0.

(** A thread parent, the client [limitedOnce] answers its thread. *)
Definition threadParent : message :=
  mkMessage "1704067200.000100" (Some "U1"%string) (Some "root"%string)
            (Some "1704067200.000100"%string).

(** Both keys are numbers and the first is not above the second. *)
Definition tsKeyLe (a b : message) : Prop :=
  exists x y, JS.parseFloat (ts a) = Some x /\ JS.parseFloat (ts b) = Some y
              /\ (x <= y)%Q.

Definition numericTs (m : message) : Prop := JS.parseFloat (ts m) <> None.

(** Two pages as the history endpoint delivers them, newest first. *)
Definition newestFirst : list message :=
  [mkMessage "1704067320.000300" (Some "U1"%string) (Some "third"%string) None;
   mkMessage "1704067260.000200" (Some "U2"%string) (Some "second"%string) None;
   mkMessage "1704067200.000100" (Some "U1"%string) (Some "first"%string) None].

(** The characters the download route accepts in a file's base name
    ([/^[a-zA-Z0-9_-]+\.(txt|md)$/]). *)
Definition isFileNameChar (c : ascii) : bool :=
  let n := N_of_ascii c in
  ((97 <=? n) && (n <=? 122) || (65 <=? n) && (n <=? 90)
   || (48 <=? n) && (n <=? 57) || (n =? 95) || (n =? 45))%N.

Definition sanitizedName (s : string) : Prop :=
  forallb isFileNameChar (list_ascii_of_string s) = true.

(** The name the channel lookup leaves the export with. *)
Definition channelNameOf (client : remote) (channelId : string) : string :=
  match info_api client with
  | Returned name => JS.or_default name channelId
  | Raised _ => "unknown-channel"%string
  end.

(** A client that answers every thread with its root and two replies. *)
Definition twoReplies : remote :=
  mkRemote (fun _ _ => Returned (mkPage (Some [threadParent]) None))
           (fun _ _ => Returned (Some
              [threadParent;
               mkMessage "1704067260.000200" (Some "U2"%string)
                         (Some "one"%string) (Some "1704067200.000100"%string);
               mkMessage "1704067320.000300" (Some "U1"%string)
                         (Some "two"%string) (Some "1704067200.000100"%string)]))
           (Returned (Some [mkMember "U1" (Some "Alice"%string) None]))
           (Returned (Some "general"%string)) 1706745600000 "example.org".





(** ** Vocabulary of the further properties *)

(** Every event a computation adds to the trace satisfies [P], whatever
    its result. *)
Definition emitsOnly (P : event -> Prop) {A} (c : M A) : Prop :=
  forall st, exists events,
    trace (snd (c st)) = trace st ++ events /\ Forall P events.







(** The name a member is listed under: the real name, else the handle, else
    the id, skipping what is missing or empty. *)
Definition displayName (m : member) : string :=
  let handle :=
    match member_name m with
    | Some name => if String.eqb name "" then member_id m else name
    | None => member_id m
    end in
  match real_name m with
  | Some name => if String.eqb name "" then handle else name
  | None => handle
  end.

(** A directory with two entries for tests. *)
Definition twoMembers : list member :=
  [mkMember "U1" (Some "Alice"%string) (Some "alice"%string);
   mkMember "U2" (Some ""%string) (Some "bob"%string)].

(** Every call of the replies endpoint comes right after a sleep;
    [slept] tells whether the event before the list was a sleep. *)
Fixpoint throttledFrom (slept : bool) (events : list event) : bool :=
  match events with
  | [] => true
  | CallReplies _ _ :: rest => slept && throttledFrom false rest
  | Sleep _ :: rest => throttledFrom true rest
  | _ :: rest => throttledFrom false rest
  end.

(** A transcript whose second line quotes the [ts] of [threadParent]. *)
Definition quotingTranscript : transcript :=
  mkTranscript ["[2024-01-01 09:00:00] Alice: root";
                "[2024-01-01 09:05:00] Bob: see 1704067200.000100";
                "[2024-01-01 09:10:00] Carol: bye"]%string
               ["root"; "quote"; "bye"]%string 3.

(** The history calls of a fetch that starts with [cursor] and receives
    the pages [ps]: same channel and window every time, each cursor the
    next cursor of the page before. *)
Fixpoint historyCallsFor (channelId startTs endTs : string)
  (cursor : option string) (ps : list page) : list event :=
  match ps with
  | [] => []
  | p :: rest =>
      CallHistory channelId startTs endTs cursor
      :: historyCallsFor channelId startTs endTs (next_cursor p) rest
  end.

(** The pages a fetch receives before its call number [k + length ps]
    throws [e]. *)
Inductive pagesThenFailure (client : remote) (e : error)
  : nat -> option string -> list page -> option string -> Prop :=
| failure_now k cursor :
    history_api client k cursor = Raised e ->
    pagesThenFailure client e k cursor [] cursor
| failure_later k cursor p ps last :
    history_api client k cursor = Returned p ->
    JS.truthy (next_cursor p) = true ->
    pagesThenFailure client e (S k) (next_cursor p) ps last ->
    pagesThenFailure client e k cursor (p :: ps) last.

(** A history endpoint that returns one page with a cursor and then
    fails with a missing scope. *)
Definition failsOnSecondPage : remote :=
  mkRemote (fun k _ =>
              match k with
              | O => Returned (mkPage (Some [threadParent]) (Some "next"%string))
              | S _ => Raised (mkError None None
                                 (Some "An API error occurred: missing_scope"%string))
              end)
           (fun _ _ => Returned None) (Returned None) (Returned None) 0 "".

(** ** The download and listing routes (lines 148-171) *)

(** [filename.match(/^[a-zA-Z0-9_-]+\.(txt|md)$/)]: the name is read up
    to its first character outside the class, which must be a dot after at
    least one character and before [txt] or [md]. *)
Fixpoint matchFileName (s : string) (seen : bool) : bool :=
  match s with
  | EmptyString => false
  | String c rest =>
      if isFileNameChar c then matchFileName rest true
      else Ascii.eqb c "." && seen
           && (String.eqb rest "txt" || String.eqb rest "md")
  end.

Inductive response :=
| InvalidFilename
| FileSent (path : string)
| FileNotFound.

(** The [/download/:filename] handler: status 400 for a name that is
    empty or does not match, else the file below the exports directory, or
    status 404 when sending it fails.  [stored] tells which paths can be
    sent. *)
Definition download (exportsDir : string) (stored : string -> bool)
  (filename : string) : response :=
  if negb (JS.truthy (Some filename)) || negb (matchFileName filename false)
  then InvalidFilename
  else
    let filePath := exportsDir +:+ "/" +:+ filename in
    if stored filePath then FileSent filePath else FileNotFound.

(** [s.endsWith(suffix)]. *)
Fixpoint endsWith (s suffix : string) : bool :=
  String.eqb s suffix ||
  match s with
  | EmptyString => false
  | String _ rest => endsWith rest suffix
  end.

(** The [/files] handler's [files.filter(f => f.endsWith('.txt') ||
    f.endsWith('.md'))]. *)
Definition fileList (files : list string) : list string :=
  filter (fun f => endsWith f ".txt" || endsWith f ".md" = true) files.



(** * Properties *)

(** ** The models on concrete values *)

Example parseISO_new_year :
  DateFns.parseISO "2024-01-01T00:00:00" = Some 1704067200000.
Proof. reflexivity. Qed.

Example format_new_year :
  DateFns.format_datetime 1704067200000 = "2024-01-01 00:00:00".
Proof. reflexivity. Qed.

Example parseFloat_ts :
  JS.parseFloat "1704067200.000100" = Some (1704067200000100 # 1000000)%Q.
Proof. reflexivity. Qed.

(** ** Running the monad *)

Lemma emit_run (e : event) (st : state) :
  emit e st
  = (Done tt, mkState (trace st ++ [e]) (historyCalls st) (repliesCalls st)).
Proof. reflexivity. Qed.

Lemma bind_run {A B} (c : M A) (k : A -> M B) (st : state) :
  (c ≫= k) st
  = match c st with
    | (Done a, st') => k a st'
    | (Throw e, st') => (Throw e, st')
    | (Diverge, st') => (Diverge, st')
    end.
Proof. reflexivity. Qed.

Ltac run_monad :=
  unfold try_catch, respond, sleep, emit, mbind, M_bind, mret, M_ret, throw;
  simpl.




(** ** Renderer *)



(** ** Time-window validation *)

(** C6: with two tokens given, an unparseable token yields the
    [InvalidFormat] rejection whatever the other token is, two parseable
    tokens with start >= end yield the [InvalidRange] rejection, and in both
    cases the rejection is the only effect: no remote call is made. *)
Theorem C6_rejections_before_remote (fuel : nat) (client : remote)
  (cmd : command) (startDateStr endDateStr : string) (rest : list string)
  (st : state) :
  splitArgs (command_text cmd) = startDateStr :: endDateStr :: rest ->
  (parseDateTime startDateStr = None \/ parseDateTime endDateStr = None ->
   processExportAsync fuel client cmd st
   = (Done tt, mkState (trace st ++ [Respond InvalidFormat])
                       (historyCalls st) (repliesCalls st)))
  /\ (forall startDate endDate,
        parseDateTime startDateStr = Some startDate ->
        parseDateTime endDateStr = Some endDate ->
        endDate <= startDate ->
        processExportAsync fuel client cmd st
        = (Done tt, mkState (trace st ++ [Respond InvalidRange])
                            (historyCalls st) (repliesCalls st))).
Proof.
  intros Hargs. unfold processExportAsync, try_catch. rewrite Hargs. split.
  - intros [Hs | He].
    + rewrite Hs. reflexivity.
    + rewrite He. by destruct (parseDateTime startDateStr).
  - intros startDate endDate -> -> Hle.
    apply Z.leb_le in Hle. rewrite Hle. reflexivity.
Qed.

Lemma C6_rejections_before_remote_witness :
  let client := mkRemote (fun _ _ => Returned (mkPage None None))
                         (fun _ _ => Returned None) (Returned None)
                         (Returned None) 0 "" in
  processExportAsync 1 client (mkCommand "2024-13-01 2024-01-31" "C1") initial
    = (Done tt, mkState [Respond InvalidFormat] O O)
  /\ processExportAsync 1 client (mkCommand "2024-02-01 2024-01-01" "C1") initial
    = (Done tt, mkState [Respond InvalidRange] O O).
Proof.
  intros client. split.
  - apply (C6_rejections_before_remote 1 client
             (mkCommand "2024-13-01 2024-01-31" "C1")
             "2024-13-01" "2024-01-31" [] initial eq_refl).
    left. reflexivity.
  - apply (proj2 (C6_rejections_before_remote 1 client
             (mkCommand "2024-02-01 2024-01-01" "C1")
             "2024-02-01" "2024-01-01" [] initial eq_refl)
             1706713200000 1704034800000); [reflexivity | reflexivity | lia].
Defined.

(** A time given after a space, as the usage text suggests, is split off
    as the second token and rejected. *)
Example space_separated_time_is_rejected :
  processExportAsync 1 nothingInRange
    (mkCommand "2024-01-01 10:30 2024-01-02 11:00" "C1") initial
  = (Done tt, mkState [Respond InvalidFormat] O O).
Proof. reflexivity. Qed.

(** ** Rate-limited reply fetcher *)

Lemma getThreadReplies_returned (client : remote) (channelId threadTs : string)
  (st : state) (messages : option (list message)) :
  replies_api client (repliesCalls st) threadTs = Returned messages ->
  getThreadReplies client channelId threadTs st
  = (Done (default [] (sliceReplies messages)),
     mkState (trace st ++ [Sleep 5000; CallReplies channelId threadTs])
             (historyCalls st) (S (repliesCalls st))).
Proof.
  intros Hcall.
  unfold getThreadReplies, conversationsReplies. run_monad.
  rewrite Hcall. simpl. by rewrite <- app_assoc.
Qed.

Lemma getThreadReplies_failed (client : remote) (channelId threadTs : string)
  (st : state) (e : error) :
  replies_api client (repliesCalls st) threadTs = Raised e ->
  ~ rateLimited e ->
  getThreadReplies client channelId threadTs st
  = (Done [],
     mkState (trace st ++ [Sleep 5000; CallReplies channelId threadTs])
             (historyCalls st) (S (repliesCalls st))).
Proof.
  intros Hcall Hcode.
  unfold getThreadReplies, conversationsReplies. run_monad.
  rewrite Hcall. simpl.
  destruct (decide _) as [Hrate|_]; [by destruct Hcode|].
  by rewrite <- app_assoc.
Qed.

Lemma getThreadReplies_limited (client : remote) (channelId threadTs : string)
  (st : state) (e : error) :
  replies_api client (repliesCalls st) threadTs = Raised e ->
  rateLimited e ->
  getThreadReplies client channelId threadTs st
  = (Done (repliesOfCall (replies_api client (S (repliesCalls st)) threadTs)),
     mkState (trace st ++ [Sleep 5000; CallReplies channelId threadTs;
                           Sleep (JS.or_number (retryAfter e) 60 * 1000);
                           CallReplies channelId threadTs])
             (historyCalls st) (S (S (repliesCalls st)))).
Proof.
  intros Hcall Hcode.
  unfold getThreadReplies, conversationsReplies. run_monad.
  rewrite Hcall. simpl.
  destruct (decide _) as [_|Hno]; [|by destruct Hno]. simpl.
  destruct (replies_api client (S (repliesCalls st)) threadTs) as [ms|e'];
    simpl; by rewrite <- !app_assoc.
Qed.

(** The fetcher always returns, and makes one or two reply calls. *)
Lemma getThreadReplies_total (client : remote) (channelId threadTs : string)
  (st : state) :
  exists replies st',
    getThreadReplies client channelId threadTs st = (Done replies, st')
    /\ historyCalls st' = historyCalls st
    /\ (repliesCalls st < repliesCalls st' <= repliesCalls st + 2)%nat
    /\ exists events, trace st' = trace st ++ events
         /\ forall n, ~ In (Respond n) events.
Proof.
  destruct (replies_api client (repliesCalls st) threadTs) as [ms|e] eqn:Hcall.
  - eexists _, _. split; [by eapply getThreadReplies_returned|]. simpl.
    repeat split; try lia. eexists. split; [reflexivity|].
    intros n [H|[H|[]]]; discriminate.
  - destruct (decide (rateLimited e)) as [Hrate|Hrate].
    + eexists _, _. split; [by eapply getThreadReplies_limited|]. simpl.
      repeat split; try lia. eexists. split; [reflexivity|].
      intros n [H|[H|[H|[H|[]]]]]; discriminate.
    + eexists _, _. split; [by eapply getThreadReplies_failed|]. simpl.
      repeat split; try lia. eexists. split; [reflexivity|].
      intros n [H|[H|[]]]; discriminate.
Qed.

(** C2 as the code has it: the fetcher never throws; a call that succeeds
    gives its replies past the root; a failure that is not a rate limit gives
    the empty set after that single call; a rate limit makes it sleep the
    failure's [retryAfter] seconds (60 when that is missing or zero) once and
    call exactly once more, giving the retry's replies or the empty set when
    the retry fails; there are never more than two calls. *)
Theorem C2_single_bounded_retry (client : remote) (channelId threadTs : string)
  (st : state) :
  let first := replies_api client (repliesCalls st) threadTs in
  let second := replies_api client (S (repliesCalls st)) threadTs in
  let call := CallReplies channelId threadTs in
  exists replies st',
    getThreadReplies client channelId threadTs st = (Done replies, st')
    /\ (repliesCalls st' <= repliesCalls st + 2)%nat
    /\ (forall messages, first = Returned messages ->
          replies = default [] (sliceReplies messages)
          /\ trace st' = trace st ++ [Sleep 5000; call])
    /\ (forall e, first = Raised e -> ~ rateLimited e ->
          replies = [] /\ trace st' = trace st ++ [Sleep 5000; call])
    /\ (forall e, first = Raised e -> rateLimited e ->
          let seconds := match retryAfter e with
                         | Some r => if r =? 0 then 60 else r
                         | None => 60
                         end in
          trace st' = trace st ++ [Sleep 5000; call; Sleep (seconds * 1000); call]
          /\ replies = repliesOfCall second).
Proof.
  intros first second call.
  destruct first as [ms|e] eqn:Hfirst; subst first.
  - eexists _, _. split; [by eapply getThreadReplies_returned|]. simpl.
    split; [lia|]. split; [|split]; [|discriminate..].
    intros ? [= <-]. done.
  - destruct (decide (rateLimited e)) as [Hrate|Hrate].
    + eexists _, _. split; [by eapply getThreadReplies_limited|]. simpl.
      split; [lia|]. split; [discriminate|]. split.
      * intros ? [= <-] ?. done.
      * intros ? [= <-] _. done.
    + eexists _, _. split; [by eapply getThreadReplies_failed|]. simpl.
      split; [lia|]. split; [discriminate|]. split.
      * intros ? [= <-] _. done.
      * intros ? [= <-] ?. done.
Qed.

Lemma C2_single_bounded_retry_witness :
  exists replies st',
    getThreadReplies limitedOnce "C1" "1704067200.000100" initial
      = (Done replies, st')
    /\ length replies = 2%nat
    /\ trace st' = [Sleep 5000; CallReplies "C1" "1704067200.000100";
                    Sleep 2000; CallReplies "C1" "1704067200.000100"].
Proof.
  destruct (C2_single_bounded_retry limitedOnce "C1" "1704067200.000100" initial)
    as (replies & st' & Hrun & _ & _ & _ & Hlimited).
  destruct (Hlimited _ eq_refl eq_refl) as [Htrace Hreplies].
  exists replies, st'. split; [exact Hrun|].
  split; [by rewrite Hreplies | exact Htrace].
Defined.

(** C2 as stated fails when the failure carries [retryAfter] 0: the fetcher
    sleeps 60 seconds, not the failure's 0. *)
Lemma C2_retry_after_zero_sleeps_sixty :
  rateLimited (mkError (Some "slack_webapi_rate_limited"%string) (Some 0) None)
  /\ trace (snd (getThreadReplies retryAfterZero "C1" "1704067200.000100" initial))
     = [Sleep 5000; CallReplies "C1" "1704067200.000100";
        Sleep 60000; CallReplies "C1" "1704067200.000100"]
  /\ ~ In (Sleep (0 * 1000))
          (trace (snd (getThreadReplies retryAfterZero "C1"
                         "1704067200.000100" initial))).
Proof.
  split; [reflexivity|]. split; [reflexivity|].
  intros [H|[H|[H|[H|[]]]]]; discriminate.
Qed.

(** ** Paginated fetch *)

Lemma fetchHistory_pages (client : remote) (channelId startTs endTs : string)
  (k : nat) (cursor : option string) (ps : list page) :
  pagesFrom client k cursor ps ->
  forall fuel messages st,
    historyCalls st = k -> (length ps <= fuel)%nat ->
    exists st',
      fetchHistory fuel client channelId startTs endTs cursor messages st
        = (Done (messages ++ messagesOf ps), st')
      /\ historyCalls st' = (k + length ps)%nat
      /\ repliesCalls st' = repliesCalls st.
Proof.
  induction 1 as [k cursor p Hcall Hstop | k cursor p ps Hcall Hnext _ IH];
    intros fuel messages st Hk Hfuel.
  - destruct fuel as [|fuel]; [simpl in Hfuel; lia|].
    simpl. unfold conversationsHistory. run_monad.
    rewrite Hk, Hcall. simpl. rewrite Hstop.
    eexists. split; [unfold messagesOf; simpl; by rewrite app_nil_r|].
    simpl. split; [lia | reflexivity].
  - destruct fuel as [|fuel]; [simpl in Hfuel; lia|].
    simpl. unfold conversationsHistory. run_monad.
    rewrite Hk, Hcall. simpl. rewrite Hnext.
    destruct (IH fuel (messages ++ default [] (page_messages p))
                (mkState (trace st ++ [CallHistory channelId startTs endTs cursor])
                         (S k) (repliesCalls st)))
      as (st' & Hrun & Hcalls & Hreplies);
      [reflexivity | simpl in Hfuel; lia | ].
    exists st'. rewrite Hrun. split; [|split].
    + unfold messagesOf. simpl. by rewrite app_assoc.
    + simpl. lia.
    + exact Hreplies.
Qed.

Lemma fetchHistory_spins (client : remote) (channelId startTs endTs : string) :
  (forall k cursor, exists p,
      history_api client k cursor = Returned p
      /\ JS.truthy (next_cursor p) = true) ->
  forall fuel cursor messages st,
    fst (fetchHistory fuel client channelId startTs endTs cursor messages st)
    = Diverge.
Proof.
  intros Hmore. induction fuel as [|fuel IH]; intros cursor messages st.
  - reflexivity.
  - simpl. unfold conversationsHistory. run_monad.
    destruct (Hmore (historyCalls st) cursor) as (p & -> & Hnext). simpl.
    rewrite Hnext. apply IH.
Qed.

(** C5 as the code has it: the loop stops at the first page without a
    non-empty next cursor and returns the pages' messages in order (after as
    many calls as pages); an empty first page without a cursor gives the
    empty list; the loop keeps no record of earlier cursors, so a remote
    whose every page carries a next cursor is never left. *)
Theorem C5_pagination_terminates_on_missing_cursor (client : remote)
  (channelId startTs endTs : string) :
  (forall ps fuel st,
      pagesFrom client (historyCalls st) None ps ->
      (length ps <= fuel)%nat ->
      exists st',
        fetchHistory fuel client channelId startTs endTs None [] st
          = (Done (messagesOf ps), st')
        /\ historyCalls st' = (historyCalls st + length ps)%nat)
  /\ (forall fuel st messages,
        history_api client (historyCalls st) None
          = Returned (mkPage messages None) ->
        default [] messages = [] ->
        fst (fetchHistory (S fuel) client channelId startTs endTs None [] st)
        = Done [])
  /\ ((forall k cursor, exists p,
          history_api client k cursor = Returned p
          /\ JS.truthy (next_cursor p) = true) ->
      forall fuel st,
        fst (fetchHistory fuel client channelId startTs endTs None [] st)
        = Diverge).
Proof.
  split; [|split].
  - intros ps fuel st Hpages Hfuel.
    destruct (fetchHistory_pages client channelId startTs endTs _ _ _ Hpages
                fuel [] st eq_refl Hfuel) as (st' & Hrun & Hcalls & _).
    by exists st'.
  - intros fuel st messages Hcall Hempty.
    destruct (fetchHistory_pages client channelId startTs endTs
                (historyCalls st) None [mkPage messages None]
                (pages_last _ _ _ _ Hcall eq_refl) (S fuel) [] st eq_refl)
      as (st' & Hrun & _); [simpl; lia|].
    rewrite Hrun. unfold messagesOf. simpl. by rewrite Hempty.
  - intros Hmore fuel st. by apply fetchHistory_spins.
Qed.

Lemma C5_pagination_terminates_on_missing_cursor_witness :
  fst (fetchHistory 1 nothingInRange "C1" "1704034800" "1706626800" None []
         initial) = Done []
  /\ forall fuel,
       fst (fetchHistory fuel oscillating "C1" "1704034800" "1706626800" None
              [] initial) = Diverge.
Proof.
  split.
  - apply (proj1 (proj2 (C5_pagination_terminates_on_missing_cursor
                           nothingInRange "C1" "1704034800" "1706626800"))
             O initial (Some [])); reflexivity.
  - intros fuel.
    apply (proj2 (proj2 (C5_pagination_terminates_on_missing_cursor
                           oscillating "C1" "1704034800" "1706626800"))).
    intros k cursor. eexists. split; [reflexivity|]. simpl.
    by destruct (Nat.even k).
Defined.

(** C5 as stated fails: against a cursor that alternates between two values
    the loop asks for the cursor "A" a second time on its fourth call and
    never stops, whatever number of pages it is allowed. *)
Lemma C5_oscillating_cursor_spins :
  trace (snd (fetchHistory 4 oscillating "C1" "1704034800" "1706626800" None
                [] initial))
  = [CallHistory "C1" "1704034800" "1706626800" None;
     CallHistory "C1" "1704034800" "1706626800" (Some "A"%string);
     CallHistory "C1" "1704034800" "1706626800" (Some "B"%string);
     CallHistory "C1" "1704034800" "1706626800" (Some "A"%string)]
  /\ forall fuel,
       fst (fetchHistory fuel oscillating "C1" "1704034800" "1706626800" None
              [] initial) = Diverge.
Proof.
  split; [reflexivity|].
  intros fuel. apply fetchHistory_spins.
  intros k cursor. eexists. split; [reflexivity|]. simpl.
  by destruct (Nat.even k).
Qed.

(** ** Thread reassembly: the loop, step by step *)

Lemma mapThrow_run {A B} (f : A -> option B) (xs : list A) (st : state) :
  (exists ys, mapThrow f xs st = (Done ys, st)
              /\ Forall2 (fun x y => f x = Some y) xs ys)
  \/ mapThrow f xs st = (Throw rangeError, st).
Proof.
  induction xs as [|x xs IH]; simpl.
  - left. exists []. split; [reflexivity | constructor].
  - rewrite !bind_run. destruct (f x) as [y|] eqn:Hfx; simpl; [|by right].
    rewrite !bind_run.
    destruct IH as [(ys & -> & Hall) | ->]; [|by right].
    left. exists (y :: ys). split; [reflexivity | by constructor].
Qed.

Lemma spliceReplies_run (users : gmap string string) (msg : message)
  (replies : list message) (t : transcript) (st : state) :
  (exists t', spliceReplies users msg replies t st = (Done t', st)
              /\ totalMessageCount t'
                 = totalMessageCount t + Z.of_nat (length replies))
  \/ spliceReplies users msg replies t st = (Throw rangeError, st).
Proof.
  unfold spliceReplies.
  destruct (JS.findIndex _ _) as [parentIndex|].
  - rewrite !bind_run.
    destruct (mapThrow_run (fun reply => formatMessage reply users replyIndent)
                replies st) as [(texts & -> & _) | ->]; [|by right].
    rewrite !bind_run.
    destruct (mapThrow_run (fun reply => formatMessageMarkdown reply users "  ")
                replies st) as [(marks & -> & _) | ->]; [|by right].
    left. eexists. split; reflexivity.
  - left. eexists. split; reflexivity.
Qed.

Lemma reportProgress_run (i n : Z) (st : state) :
  reportProgress i n st
  = (Done tt,
     mkState (trace st ++
                (if ((i + 1) mod 10 =? 0) && (i <? n - 1)
                 then [Respond (Progress (i + 1) n
                                  (JS.ceil_div ((n - i - 1) * 5) 60))]
                 else []))
             (historyCalls st) (repliesCalls st)).
Proof.
  unfold reportProgress.
  destruct ((i + 1) mod 10 =? 0); destruct (i =? n - 1);
    destruct (i <? n - 1); simpl; try reflexivity;
    destruct st; simpl; by rewrite app_nil_r.
Qed.

Lemma threadLoop_step (client : remote) (channelId : string)
  (users : gmap string string) (msg : message) (rest : list message) (i n : Z)
  (t t' : transcript) (st st' : state) :
  threadLoop client channelId users (msg :: rest) i n t st = (Done t', st') ->
  exists replies st1 t1,
    getThreadReplies client channelId (default "" (thread_ts msg)) st
      = (Done replies, st1)
    /\ spliceReplies users msg replies t st1 = (Done t1, st1)
    /\ threadLoop client channelId users rest (i + 1) n t1
         (snd (reportProgress i n st1)) = (Done t', st').
Proof.
  simpl. rewrite bind_run.
  destruct (getThreadReplies_total client channelId (default "" (thread_ts msg)) st)
    as (replies & st1 & -> & _).
  rewrite bind_run.
  destruct (spliceReplies_run users msg replies t st1)
    as [(t1 & Hsplice & _) | Hsplice]; rewrite Hsplice; [|discriminate].
  rewrite bind_run, reportProgress_run. intros Hrest.
  exists replies, st1, t1. repeat split; try done.
  by rewrite reportProgress_run.
Qed.



(** The progress notices of the loop from thread [i] on: one after each
    thread whose number is a multiple of ten and below [n]. *)
Lemma threadLoop_progress (client : remote) (channelId : string)
  (users : gmap string string) (rest : list message) :
  forall (i n : Z) (t t' : transcript) (st st' : state),
    threadLoop client channelId users rest i n t st = (Done t', st') ->
    exists events,
      trace st' = trace st ++ events
      /\ forall d tot m,
           In (Respond (Progress d tot m)) events
           <-> tot = n /\ i < d <= i + Z.of_nat (length rest)
               /\ d mod 10 = 0 /\ d < n
               /\ m = JS.ceil_div ((n - d) * 5) 60.
Proof.
  induction rest as [|msg rest IH]; intros i n t t' st st' Hloop.
  - injection Hloop as <- <-. exists []. split; [by rewrite app_nil_r|].
    intros d tot m. simpl. split; [done | lia].
  - apply threadLoop_step in Hloop
      as (replies & st1 & t1 & Hfetch & _ & Hrest).
    destruct (getThreadReplies_total client channelId
                (default "" (thread_ts msg)) st)
      as (replies' & st1' & Hfetch' & _ & _ & fetched & Htrace & Hquiet).
    rewrite Hfetch in Hfetch'. injection Hfetch' as <- <-.
    apply IH in Hrest as (events & Hevents & Hprogress).
    rewrite reportProgress_run in Hevents. simpl in Hevents.
    rewrite Htrace, <- !app_assoc in Hevents.
    eexists. split; [exact Hevents|].
    intros d tot m. rewrite !in_app_iff, Hprogress.
    change (length (msg :: rest)) with (S (length rest)).
    rewrite Nat2Z.inj_succ. split.
    + intros [Hin | [Hin | Hin]].
      * by apply Hquiet in Hin.
      * destruct ((i + 1) mod 10 =? 0) eqn:Hten; [|destruct Hin].
        destruct (i <? n - 1) eqn:Hlast; [|destruct Hin].
        destruct Hin as [[= <- <- <-] | []].
        apply Z.eqb_eq in Hten. apply Z.ltb_lt in Hlast.
        repeat split; try lia. f_equal. f_equal. lia.
      * destruct Hin as (-> & Hd & Hten & Hn & ->). repeat split; lia.
    + intros (-> & Hd & Hten & Hn & ->).
      destruct (decide (d = i + 1)) as [-> | Hlater].
      * right. left. apply Z.eqb_eq in Hten as ->.
        assert ((i <? n - 1) = true) as -> by (apply Z.ltb_lt; lia).
        left. do 2 f_equal. f_equal. lia.
      * right. right. repeat split; lia.
Qed.

(** C4 as the code has it: over N thread parents the loop sends a progress
    notice after thread d exactly when d is a multiple of ten and d is not
    the last thread, and the notice carries ceil(((N - d) * 5) / 60) minutes;
    nothing is sent from the loop on the final thread. *)
Theorem C4_progress_every_tenth_but_last (client : remote) (channelId : string)
  (users : gmap string string) (roots : list message) (t t' : transcript)
  (st st' : state) :
  let N := Z.of_nat (length roots) in
  threadLoop client channelId users roots 0 N t st = (Done t', st') ->
  forall d tot m,
    In (Respond (Progress d tot m)) (emitted st st')
    <-> tot = N /\ 0 < d < N /\ d mod 10 = 0
        /\ m = JS.ceil_div ((N - d) * 5) 60.
Proof.
  intros N Hloop d tot m.
  apply threadLoop_progress in Hloop as (events & Htrace & Hprogress).
  unfold emitted. rewrite Htrace, drop_app_length, Hprogress.
  subst N. split.
  - intros (-> & Hd & Hten & Hn & ->). repeat split; lia.
  - intros (-> & Hd & Hten & ->). repeat split; lia.
Qed.

Lemma C4_progress_every_tenth_but_last_witness :
  In (Respond (Progress 10 11 1))
     (emitted initial
        (snd (threadLoop noReplies "C1" ∅ elevenParents 0 11 emptyTranscript
                initial))).
Proof.
  apply (C4_progress_every_tenth_but_last noReplies "C1" ∅ elevenParents
           emptyTranscript emptyTranscript initial
           (snd (threadLoop noReplies "C1" ∅ elevenParents 0 11
                   emptyTranscript initial))).
  - vm_compute. reflexivity.
  - vm_compute. repeat split; discriminate.
Defined.

(** C4 as stated fails: with ten thread parents the tenth thread is both a
    tenth and the final one, and the loop sends no progress notice at all. *)
Lemma C4_no_progress_on_final_thread :
  fst (threadLoop noReplies "C1" ∅ tenParents 0 10 emptyTranscript initial)
    = Done emptyTranscript
  /\ forall d tot m,
       ~ In (Respond (Progress d tot m))
            (emitted initial
               (snd (threadLoop noReplies "C1" ∅ tenParents 0 10
                       emptyTranscript initial))).
Proof.
  split; [vm_compute; reflexivity|].
  intros d tot m. vm_compute. intros Hin.
  repeat (destruct Hin as [Hin|Hin]; [discriminate Hin|]). exact Hin.
Qed.

(** ** The reported message count *)





(** ** Chronological sort *)

Lemma insertByTs_perm (m : message) (sorted : list message) :
  Permutation (insertByTs m sorted) (m :: sorted).
Proof.
  induction sorted as [|x rest IH]; simpl; [reflexivity|].
  destruct (tsLe m x); [reflexivity|].
  rewrite IH. apply perm_swap.
Qed.

Lemma sortByTs_perm (messages : list message) :
  Permutation (sortByTs messages) messages.
Proof.
  induction messages as [|m rest IH]; simpl; [reflexivity|].
  rewrite insertByTs_perm. by constructor.
Qed.

Lemma tsKeyLe_trans (a b c : message) :
  tsKeyLe a b -> tsKeyLe b c -> tsKeyLe a c.
Proof.
  intros (x & y & Ha & Hb & Hxy) (y' & z & Hb' & Hc & Hyz).
  rewrite Hb in Hb'. injection Hb' as <-.
  exists x, z. repeat split; try done. by apply Qle_trans with y.
Qed.

Lemma tsLe_true (a b : message) :
  numericTs a -> numericTs b -> tsLe a b = true -> tsKeyLe a b.
Proof.
  unfold numericTs, tsLe, tsKeyLe. intros Ha Hb.
  destruct (JS.parseFloat (ts a)) as [x|]; [|done].
  destruct (JS.parseFloat (ts b)) as [y|]; [|done].
  intros Hle. exists x, y. repeat split. by apply Qle_bool_iff.
Qed.

Lemma tsLe_false (a b : message) :
  numericTs a -> numericTs b -> tsLe a b = false -> tsKeyLe b a.
Proof.
  unfold numericTs, tsLe, tsKeyLe. intros Ha Hb.
  destruct (JS.parseFloat (ts a)) as [x|]; [|done].
  destruct (JS.parseFloat (ts b)) as [y|]; [|done].
  intros Hle. exists y, x. repeat split.
  apply Qlt_le_weak, Qnot_le_lt. intros Hxy.
  apply Qle_bool_iff in Hxy. congruence.
Qed.

Lemma insertByTs_sorted (m : message) (sorted : list message) :
  numericTs m -> Forall numericTs sorted ->
  StronglySorted tsKeyLe sorted ->
  StronglySorted tsKeyLe (insertByTs m sorted).
Proof.
  intros Hm Hnum Hsorted.
  induction Hsorted as [|x rest Hrest IH Hx]; simpl.
  - repeat constructor.
  - apply Forall_cons in Hnum as [Hxnum Hnum].
    destruct (tsLe m x) eqn:Hle.
    + apply tsLe_true in Hle; [|done..].
      constructor; [by constructor|]. constructor; [done|].
      eapply Forall_impl; [exact Hx|]. intros y Hy. by eapply tsKeyLe_trans.
    + apply tsLe_false in Hle; [|done..].
      constructor; [by apply IH|].
      rewrite insertByTs_perm. by constructor.
Qed.

Lemma sortByTs_sorted (messages : list message) :
  Forall numericTs messages -> StronglySorted tsKeyLe (sortByTs messages).
Proof.
  induction 1 as [|m rest Hm Hrest IH]; simpl; [constructor|].
  apply insertByTs_sorted; [done | | done].
  by rewrite sortByTs_perm.
Qed.

(** ** Splicing keeps the lines already there *)

Lemma splice_sublist {A} (xs ys : list A) (i : nat) :
  xs `sublist_of` JS.splice xs i ys.
Proof.
  unfold JS.splice. rewrite <- (take_drop i xs) at 1.
  apply sublist_app; [done|]. by apply sublist_inserts_l.
Qed.

Lemma spliceReplies_sublist (users : gmap string string) (msg : message)
  (replies : list message) (t t' : transcript) (st st' : state) :
  spliceReplies users msg replies t st = (Done t', st') ->
  allMessages t `sublist_of` allMessages t'.
Proof.
  unfold spliceReplies.
  destruct (JS.findIndex _ _) as [parentIndex|].
  - rewrite !bind_run.
    destruct (mapThrow_run (fun reply => formatMessage reply users replyIndent)
                replies st) as [(texts & -> & _) | ->]; [|discriminate].
    rewrite !bind_run.
    destruct (mapThrow_run (fun reply => formatMessageMarkdown reply users "  ")
                replies st) as [(marks & -> & _) | ->]; [|discriminate].
    intros [= <- _]. simpl. apply splice_sublist.
  - by intros [= <- _].
Qed.

Lemma threadLoop_sublist (client : remote) (channelId : string)
  (users : gmap string string) (rest : list message) :
  forall (i n : Z) (t t' : transcript) (st st' : state),
    threadLoop client channelId users rest i n t st = (Done t', st') ->
    allMessages t `sublist_of` allMessages t'.
Proof.
  induction rest as [|msg rest IH]; intros i n t t' st st' Hloop.
  - by injection Hloop as <- _.
  - apply threadLoop_step in Hloop
      as (replies & st1 & t1 & _ & Hsplice & Hrest).
    etrans; [by eapply spliceReplies_sublist | by eapply IH].
Qed.

Lemma assemble_top_level (client : remote) (channelId : string)
  (users : gmap string string) (messages : list message) (skipThreads : bool)
  (t : transcript) (st st' : state) :
  assemble client channelId users messages skipThreads st = (Done t, st') ->
  exists lines,
    Forall2 (fun msg line => formatMessage msg users "" = Some line)
            messages lines
    /\ lines `sublist_of` allMessages t.
Proof.
  unfold assemble. rewrite !bind_run.
  destruct (mapThrow_run (fun msg => formatMessage msg users "") messages st)
    as [(texts & -> & Htexts) | ->]; [|discriminate].
  rewrite !bind_run.
  destruct (mapThrow_run (fun msg => formatMessageMarkdown msg users "")
              messages st) as [(marks & -> & _) | ->]; [|discriminate].
  intros Hrun. exists texts. split; [exact Htexts|].
  destruct ((0 <? _) && negb skipThreads).
  - rewrite !bind_run in Hrun. unfold respond at 1 in Hrun.
    rewrite emit_run, bind_run in Hrun.
    destruct (threadLoop _ _ _ _ _ _ _ _) as [[t'| |] st1] eqn:Hloop;
      try discriminate.
    rewrite !bind_run in Hrun. unfold respond in Hrun.
    rewrite emit_run in Hrun. injection Hrun as <- _.
    by apply threadLoop_sublist in Hloop.
  - destruct (skipThreads && _).
    + rewrite !bind_run in Hrun. unfold respond in Hrun.
      rewrite emit_run in Hrun. by injection Hrun as <- _.
    + by injection Hrun as <- _.
Qed.

(** Once the pages are in, the export goes on with the sorted list. *)
Lemma exportWindow_sorts (fuel : nat) (client : remote) (cmd : command)
  (skipThreads : bool) (startDate endDate : Z) (fetched : list message)
  (st st1 : state) :
  fetched <> [] ->
  fetchHistory fuel client (channel_id cmd)
    (pretty (JS.floor_div startDate 1000)) (pretty (JS.floor_div endDate 1000))
    None []
    (mkState (trace st ++ [Respond Exporting]) (historyCalls st)
             (repliesCalls st))
  = (Done fetched, st1) ->
  exportWindow fuel client cmd skipThreads startDate endDate st
  = (users ← getUsersInfo client;
     channelName ← getChannelName client (channel_id cmd);
     t ← assemble client (channel_id cmd) users (sortByTs fetched) skipThreads;
     deliver client (channel_id cmd) channelName startDate endDate t) st1.
Proof.
  intros Hsome Hfetch. unfold exportWindow.
  rewrite bind_run. unfold respond at 1. rewrite emit_run, bind_run, Hfetch.
  by destruct fetched.
Qed.

(** C10: the list handed to rendering and thread processing is the fetched
    list sorted by its numeric [ts] key in ascending order (a permutation of
    what the pages delivered); the export sorts right after the last page and
    before it renders or processes any thread, and the top-level lines of the
    transcript are the renderings of the sorted list, in its order. *)
Theorem C10_sorted_before_rendering (fetched : list message) :
  Forall numericTs fetched ->
  Permutation (sortByTs fetched) fetched
  /\ StronglySorted tsKeyLe (sortByTs fetched)
  /\ (forall fuel client cmd skipThreads startDate endDate st st1,
        fetched <> [] ->
        fetchHistory fuel client (channel_id cmd)
          (pretty (JS.floor_div startDate 1000))
          (pretty (JS.floor_div endDate 1000)) None []
          (mkState (trace st ++ [Respond Exporting]) (historyCalls st)
                   (repliesCalls st))
        = (Done fetched, st1) ->
        exportWindow fuel client cmd skipThreads startDate endDate st
        = (users ← getUsersInfo client;
           channelName ← getChannelName client (channel_id cmd);
           t ← assemble client (channel_id cmd) users (sortByTs fetched)
                 skipThreads;
           deliver client (channel_id cmd) channelName startDate endDate t) st1)
  /\ forall client channelId users skipThreads st t st',
       assemble client channelId users (sortByTs fetched) skipThreads st
         = (Done t, st') ->
       exists lines,
         Forall2 (fun msg line => formatMessage msg users "" = Some line)
                 (sortByTs fetched) lines
         /\ lines `sublist_of` allMessages t.
Proof.
  intros Hnum. split; [apply sortByTs_perm|].
  split; [by apply sortByTs_sorted|]. split.
  - intros fuel client cmd skipThreads startDate endDate st st1.
    apply exportWindow_sorts.
  - intros client channelId users skipThreads st t st'.
    apply assemble_top_level.
Qed.

Lemma C10_sorted_before_rendering_witness :
  Forall numericTs newestFirst
  /\ sortByTs newestFirst = rev newestFirst
  /\ StronglySorted tsKeyLe (sortByTs newestFirst).
Proof.
  assert (Hnum : Forall numericTs newestFirst)
    by (repeat constructor; discriminate).
  split; [exact Hnum|]. split; [vm_compute; reflexivity|].
  apply (C10_sorted_before_rendering newestFirst Hnum).
Defined.

(** ** Artifacts *)

Lemma append_length (x y : string) :
  String.length (x +:+ y) = (String.length x + String.length y)%nat.
Proof.
  induction x as [|c x IH]; [done|].
  change (String c x +:+ y) with (String c (x +:+ y)). simpl. by rewrite IH.
Qed.

Lemma append_cancel_r (a b t : string) : a +:+ t = b +:+ t -> a = b.
Proof.
  revert b. induction a as [|c a IH]; intros [|c' b] Heq.
  - done.
  - apply (f_equal String.length) in Heq. rewrite !append_length in Heq.
    simpl in Heq. lia.
  - apply (f_equal String.length) in Heq. rewrite !append_length in Heq.
    simpl in Heq. lia.
  - change (String c (a +:+ t) = String c' (b +:+ t)) in Heq.
    injection Heq as -> Heq. f_equal. by apply IH.
Qed.

Lemma getChannelName_run (client : remote) (channelId : string) (st : state) :
  getChannelName client channelId st
  = (Done (channelNameOf client channelId),
     mkState (trace st ++ [CallChannelInfo channelId])
             (historyCalls st) (repliesCalls st)).
Proof.
  unfold getChannelName, channelNameOf. run_monad.
  by destruct (info_api client).
Qed.

(** C9 as the code has it: the base name is the channel name exactly as the
    lookup left it (the channel's name, its id when the name is empty, or
    "unknown-channel" when the lookup failed), an underscore, the start date
    as yyyyMMdd, a hyphen and the end date as yyyyMMdd, both dates taken nine
    hours after the window bounds; one file is written as base.txt and one
    as base.md. *)
Theorem C9_base_file_name (client : remote) (channelId : string)
  (startDate endDate : Z) (t : transcript) (st0 st : state) :
  let channelName := channelNameOf client channelId in
  let base :=
    channelName +:+ "_"
    +:+ DateFns.format_compact (DateFns.addHours startDate 9) +:+ "-"
    +:+ DateFns.format_compact (DateFns.addHours endDate 9) in
  fst (getChannelName client channelId st0) = Done channelName
  /\ exists text markdown title comment,
       deliver client channelId channelName startDate endDate t st
       = (Done tt,
          mkState (trace st ++ [EnsureExportsDir;
                                WriteFile (base +:+ ".txt") text;
                                WriteFile (base +:+ ".md") markdown;
                                Upload channelId (base +:+ ".txt") title comment])
                  (historyCalls st) (repliesCalls st)).
Proof.
  intros channelName base. split; [by rewrite getChannelName_run|].
  eexists _, _, _, _. unfold deliver. run_monad.
  rewrite <- !app_assoc. reflexivity.
Qed.

(** C9 as stated fails: for the channel "雑談" the base name keeps the
    name's characters, none of which the download route accepts, so no
    sanitized name stands before the underscore and the dates. *)
Lemma C9_channel_name_kept_verbatim :
  let jstStart := DateFns.addHours 1704034800000 9 in
  let jstEnd := DateFns.addHours 1706626800000 9 in
  baseFileName "雑談" jstStart jstEnd = "雑談_20240101-20240131"%string
  /\ ~ exists name,
         sanitizedName name
         /\ baseFileName "雑談" jstStart jstEnd
            = name +:+ "_" +:+ DateFns.format_compact jstStart +:+ "-"
              +:+ DateFns.format_compact jstEnd.
Proof.
  split; [vm_compute; reflexivity|].
  intros (name & Hsafe & Heq). unfold baseFileName in Heq.
  apply append_cancel_r in Heq. subst name. vm_compute in Hsafe. discriminate.
Qed.

(** ** Thread splicing *)

Lemma findIndex_none {A} (p : A -> bool) (xs : list A) :
  (forall x, In x xs -> p x = false) -> JS.findIndex p xs = None.
Proof.
  induction xs as [|x xs IH]; intros Hnone; [reflexivity|]. simpl.
  rewrite (Hnone x) by (by left). rewrite IH; [reflexivity|].
  intros y Hy. apply Hnone. by right.
Qed.

(** When no line of the transcript contains the [ts] of a thread parent,
    the loop leaves both renderings as they were. *)
Lemma threadLoop_without_match (client : remote) (channelId : string)
  (users : gmap string string) (rest : list message) :
  forall (i n : Z) (t t' : transcript) (st st' : state),
    (forall root line, In root rest -> In line (allMessages t) ->
                       JS.includes (ts root) line = false) ->
    threadLoop client channelId users rest i n t st = (Done t', st') ->
    allMessages t' = allMessages t
    /\ allMessagesMarkdown t' = allMessagesMarkdown t.
Proof.
  induction rest as [|msg rest IH]; intros i n t t' st st' Hnone Hloop.
  - by injection Hloop as <- _.
  - apply threadLoop_step in Hloop
      as (replies & st1 & t1 & _ & Hsplice & Hrest).
    unfold spliceReplies in Hsplice.
    rewrite findIndex_none in Hsplice
      by (intros line Hline; apply (Hnone msg line); [by left | done]).
    injection Hsplice as <-.
    apply IH in Hrest; [exact Hrest|]. simpl.
    intros root line Hroot Hline. apply Hnone; [by right | done].
Qed.

(** *** The scenario of one parent with two replies *)

(** C1, the code at the failing input: the two replies are fetched and
    counted, the rendered parent line does not contain the parent's [ts], so
    the lookup finds nothing and neither transcript receives the replies. *)
Theorem C1_replies_not_spliced :
  let users : gmap string string := {[ "U1"%string := "Alice"%string ]} in
  let run := assemble twoReplies "C1" users [threadParent] false initial in
  fst run
  = Done (mkTranscript
            ["[2024-01-01 09:00:00] Alice: root"%string]
            ["### Alice " +:+ backtick +:+ "2024-01-01 09:00:00" +:+ backtick
             +:+ newline +:+ newline +:+ "root" +:+ newline]
            3)
  /\ trace (snd run)
     = [Respond (ThreadEstimate 1 1); Sleep 5000;
        CallReplies "C1" "1704067200.000100"; Respond (ThreadsDone 1)]
  /\ JS.findIndex (fun line => JS.includes (ts threadParent) line)
                  ["[2024-01-01 09:00:00] Alice: root"%string] = None.
Proof. vm_compute. repeat split. Qed.

(** ** The calendar of the date model *)













(** ** Printing and reading the digits of a date *)







(** ** Splitting a token at its date/time delimiter *)



(** ** The window round trip *)







(** * Further properties of the code *)

(** ** What a computation may add to the trace *)


Lemma emitsOnly_weaken {A} (P Q : event -> Prop) (c : M A) :
  (forall e, P e -> Q e) -> emitsOnly P c -> emitsOnly Q c.
Proof.
  intros HPQ Hc st. destruct (Hc st) as (events & Htrace & Hall).
  exists events. split; [done|]. by eapply Forall_impl.
Qed.



























(** ** User directory *)

Lemma setMember_displayName (users : gmap string string) (m : member) :
  setMember users m = <[member_id m := displayName m]> users.
Proof.
  unfold setMember, displayName, JS.or, JS.or_default, JS.truthy.
  destruct (real_name m) as [r|]; destruct (member_name m) as [h|]; simpl;
    try destruct (String.eqb r "") eqn:Hr; try destruct (String.eqb h "") eqn:Hh;
    simpl; rewrite ?Hr, ?Hh; try reflexivity.
Qed.

Lemma displayName_nonempty (m : member) :
  member_id m <> ""%string -> displayName m <> ""%string.
Proof.
  intros Hid. unfold displayName.
  destruct (real_name m) as [r|]; destruct (member_name m) as [h|];
    try destruct (String.eqb r "") eqn:Hr; try destruct (String.eqb h "") eqn:Hh;
    try done; by apply String.eqb_neq.
Qed.

Lemma directory_other (members : list member) (users : gmap string string)
  (id : string) :
  ~ In id (map member_id members) ->
  foldl setMember users members !! id = users !! id.
Proof.
  revert users. induction members as [|m members IH]; intros users Hid;
    [done|].
  simpl. rewrite IH by (intros Hin; apply Hid; by right).
  rewrite setMember_displayName, lookup_insert_ne; [done|].
  intros Heq. apply Hid. by left.
Qed.

Lemma directory_entry (members : list member) (users : gmap string string)
  (id name : string) :
  foldl setMember users members !! id = Some name ->
  users !! id = Some name
  \/ exists m, In m members /\ member_id m = id /\ name = displayName m.
Proof.
  revert users. induction members as [|m members IH]; intros users Hget;
    [by left|].
  simpl in Hget. apply IH in Hget as [Hget | (m' & Hin & Hid & Hname)].
  - rewrite setMember_displayName in Hget.
    destruct (decide (member_id m = id)) as [<- | Hne].
    + rewrite lookup_insert_eq in Hget. injection Hget as <-.
      right. exists m. repeat split. by left.
    + rewrite lookup_insert_ne in Hget by done. by left.
  - right. exists m'. repeat split; try done. by right.
Qed.

Lemma directory_member (members : list member) (users : gmap string string)
  (m : member) :
  NoDup (map member_id members) -> In m members ->
  foldl setMember users members !! member_id m = Some (displayName m).
Proof.
  revert users. induction members as [|m0 members IH]; intros users Hdup Hin;
    [destruct Hin|].
  simpl in Hdup. apply NoDup_cons in Hdup as [Hfresh Hdup].
  destruct Hin as [-> | Hin]; simpl.
  - rewrite directory_other.
    + by rewrite setMember_displayName, lookup_insert_eq.
    + intros Hin. apply Hfresh. by apply list_elem_of_In.
  - by apply IH.
Qed.

Lemma directory_key (members : list member) (users : gmap string string)
  (id : string) :
  In id (map member_id members) ->
  exists name, foldl setMember users members !! id = Some name.
Proof.
  revert users. induction members as [|m members IH]; intros users Hin;
    [destruct Hin|].
  simpl. destruct (in_dec string_dec id (map member_id members))
    as [Hlater | Hlast]; [by apply IH|].
  destruct Hin as [<- | Hin]; [|done].
  rewrite directory_other, setMember_displayName, lookup_insert_eq by done.
  by eexists.
Qed.

Lemma getUsersInfo_run (client : remote) (st : state) :
  getUsersInfo client st
  = (Done (match users_api client with
           | Returned (Some members) => foldl setMember ∅ members
           | _ => ∅
           end),
     mkState (trace st ++ [CallUsersList]) (historyCalls st)
             (repliesCalls st)).
Proof.
  unfold getUsersInfo. run_monad.
  by destruct (users_api client) as [[members|]|e].
Qed.

(** The directory of a successful listing: exactly the listed ids are
    keys; each key maps to the display name of a listed member with that
    id, which is non-empty when the id is; with pairwise different ids
    every member is found under its own display name. *)
Theorem directory_of_listing (client : remote) (members : list member)
  (st : state) :
  users_api client = Returned (Some members) ->
  exists users st',
    getUsersInfo client st = (Done users, st')
    /\ (forall id, users !! id = None <-> ~ In id (map member_id members))
    /\ (forall id name, users !! id = Some name ->
          exists m, In m members /\ member_id m = id /\ name = displayName m
                    /\ (id <> ""%string -> name <> ""%string))
    /\ (NoDup (map member_id members) ->
        forall m, In m members -> users !! member_id m = Some (displayName m)).
Proof.
  intros Hlist. eexists _, _. split; [apply getUsersInfo_run|].
  rewrite Hlist. split; [|split].
  - intros id. split.
    + intros Hnone Hin. apply (directory_key _ ∅) in Hin as [name Hname].
      congruence.
    + intros Hid. by rewrite directory_other.
  - intros id name Hget.
    apply directory_entry in Hget as [Hget | (m & Hin & Hid & Hname)];
      [by rewrite lookup_empty in Hget|].
    exists m. repeat split; try done. intros Hne. subst.
    by apply displayName_nonempty.
  - intros Hdup m Hin. by apply directory_member.
Qed.

Lemma twoMembers_distinct : NoDup (map member_id twoMembers).
Proof.
  simpl. apply NoDup_cons. split; [|apply NoDup_singleton].
  by intros ?%list_elem_of_singleton.
Qed.

Lemma directory_of_listing_witness :
  exists users,
    fst (getUsersInfo (mkRemote (fun _ _ => Returned (mkPage None None))
                                (fun _ _ => Returned None)
                                (Returned (Some twoMembers)) (Returned None)
                                0 "") initial) = Done users
    /\ users !! "U2"%string = Some "bob"%string
    /\ users !! "U3"%string = None.
Proof.
  destruct (directory_of_listing
              (mkRemote (fun _ _ => Returned (mkPage None None))
                        (fun _ _ => Returned None)
                        (Returned (Some twoMembers)) (Returned None) 0 "")
              twoMembers initial eq_refl)
    as (users & st' & Hrun & Hkeys & _ & Hfind).
  exists users. rewrite Hrun. split; [reflexivity|]. split.
  - apply (Hfind twoMembers_distinct
             (mkMember "U2" (Some ""%string) (Some "bob"%string))).
    right. by left.
  - apply Hkeys. simpl. intros [H|[H|[]]]; discriminate.
Defined.

(** A failed or empty listing leaves the directory empty, without
    throwing, and every author with a non-empty id is then rendered by that
    id. *)
Theorem directory_failure_renders_ids (client : remote) (st : state)
  (msg : message) (id : string) :
  (forall members, users_api client <> Returned (Some members)) ->
  user msg = Some id -> id <> ""%string ->
  exists st',
    getUsersInfo client st = (Done ∅, st')
    /\ trace st' = trace st ++ [CallUsersList]
    /\ userName msg ∅ = id.
Proof.
  intros Hfail Huser Hid.
  exists (mkState (trace st ++ [CallUsersList]) (historyCalls st)
                  (repliesCalls st)).
  split; [|split; [reflexivity|]].
  - rewrite getUsersInfo_run.
    destruct (users_api client) as [[members|]|e]; try reflexivity.
    by destruct (Hfail members).
  - unfold userName, usersGet, JS.or. rewrite Huser, lookup_empty. simpl.
    by apply String.eqb_neq in Hid as ->.
Qed.

Lemma directory_failure_renders_ids_witness :
  userName (mkMessage "1704067200.000100" (Some "U1"%string)
                      (Some "hi"%string) None) ∅ = "U1"%string.
Proof.
  destruct (directory_failure_renders_ids
              (mkRemote (fun _ _ => Returned (mkPage None None))
                        (fun _ _ => Returned None)
                        (Raised (mkError None None (Some "boom"%string)))
                        (Returned None) 0 "")
              initial
              (mkMessage "1704067200.000100" (Some "U1"%string)
                         (Some "hi"%string) None) "U1")
    as (st' & _ & _ & Hname); [discriminate | reflexivity | discriminate|].
  exact Hname.
Defined.

(** A message of a listed member with a non-empty id is rendered under
    that member's display name (ids pairwise different). *)
Theorem listed_author_rendered_by_display_name (members : list member)
  (m : member) (msg : message) :
  NoDup (map member_id members) -> In m members ->
  member_id m <> ""%string -> user msg = Some (member_id m) ->
  userName msg (foldl setMember ∅ members) = displayName m.
Proof.
  intros Hdup Hin Hid Huser. unfold userName, usersGet. rewrite Huser.
  rewrite directory_member by done.
  pose proof (displayName_nonempty m Hid) as Hname.
  unfold JS.or. simpl. apply String.eqb_neq in Hname as Hname'.
  rewrite Hname'. simpl. by rewrite Hname'.
Qed.

Lemma listed_author_rendered_by_display_name_witness :
  userName (mkMessage "1704067200.000100" (Some "U2"%string)
                      (Some "hi"%string) None)
           (foldl setMember ∅ twoMembers) = "bob"%string.
Proof.
  apply (listed_author_rendered_by_display_name twoMembers
           (mkMember "U2" (Some ""%string) (Some "bob"%string))).
  - exact twoMembers_distinct.
  - right. by left.
  - discriminate.
  - reflexivity.
Defined.

(** ** Rendering and assembling *)

Lemma formattedTime_none (m : message) :
  formattedTime m = None <-> JS.parseFloat (ts m) = None.
Proof. unfold formattedTime. by destruct (JS.parseFloat (ts m)). Qed.

Lemma mapThrow_fails {A B} (f : A -> option B) (xs : list A) (x : A)
  (st : state) :
  In x xs -> f x = None -> mapThrow f xs st = (Throw rangeError, st).
Proof.
  intros Hin Hx.
  destruct (mapThrow_run f xs st) as [(ys & _ & Hall) | Hthrow]; [|done].
  apply list_elem_of_In, list_elem_of_lookup in Hin as [i Hi].
  destruct (Forall2_lookup_l _ _ _ i x Hall Hi) as (y & _ & Hy). congruence.
Qed.

(** One message whose [ts] is not a number makes the assembly throw the
    range error of [format] at once: nothing is sent and no thread is
    fetched, whatever the flag. *)
Theorem malformed_ts_aborts_assembly (client : remote) (channelId : string)
  (users : gmap string string) (messages : list message) (skipThreads : bool)
  (m : message) (st : state) :
  In m messages -> JS.parseFloat (ts m) = None ->
  assemble client channelId users messages skipThreads st
  = (Throw rangeError, st).
Proof.
  intros Hin Hts. unfold assemble. rewrite bind_run.
  rewrite (mapThrow_fails _ _ m); [done | done |].
  unfold formatMessage. by apply formattedTime_none in Hts as ->.
Qed.

Lemma malformed_ts_aborts_assembly_witness :
  assemble twoReplies "C1" ∅
    [threadParent; mkMessage "soon" (Some "U1"%string) None None] false initial
  = (Throw rangeError, initial).
Proof.
  apply (malformed_ts_aborts_assembly twoReplies "C1" ∅ _ false
           (mkMessage "soon" (Some "U1"%string) None None)).
  - right. by left.
  - reflexivity.
Defined.

Lemma findIndex_first {A} (p : A -> bool) (xs : list A) (i : nat) :
  JS.findIndex p xs = Some i ->
  (exists x, xs !! i = Some x /\ p x = true)
  /\ forall j y, (j < i)%nat -> xs !! j = Some y -> p y = false.
Proof.
  revert i. induction xs as [|x xs IH]; intros i; simpl; [discriminate|].
  destruct (p x) eqn:Hx.
  - intros [= <-]. split; [by exists x | intros; lia].
  - destruct (JS.findIndex p xs) as [k|]; [|discriminate].
    intros [= <-]. destruct (IH k eq_refl) as [Hfound Hbefore].
    split; [exact Hfound|].
    intros [|j] y Hj; simpl; [by intros [= <-]|].
    apply Hbefore. lia.
Qed.

(** When some line contains the parent's [ts], the replies are rendered
    in fetch order and inserted right after the first such line, at the
    same position in both renderings; when none does, both stay as they
    are.  The count grows by the number of replies either way. *)
Theorem replies_go_after_first_matching_line (users : gmap string string)
  (msg : message) (replies : list message) (t t' : transcript)
  (st st' : state) :
  spliceReplies users msg replies t st = (Done t', st') ->
  st' = st
  /\ totalMessageCount t' = totalMessageCount t + Z.of_nat (length replies)
  /\ match JS.findIndex (fun line => JS.includes (ts msg) line)
                        (allMessages t) with
     | Some i =>
         (exists line, allMessages t !! i = Some line
                       /\ JS.includes (ts msg) line = true)
         /\ (forall j line, (j < i)%nat -> allMessages t !! j = Some line ->
                            JS.includes (ts msg) line = false)
         /\ exists texts marks,
              Forall2 (fun reply line =>
                         formatMessage reply users replyIndent = Some line)
                      replies texts
              /\ Forall2 (fun reply line =>
                            formatMessageMarkdown reply users "  " = Some line)
                         replies marks
              /\ allMessages t'
                 = take (S i) (allMessages t) ++ texts
                   ++ drop (S i) (allMessages t)
              /\ allMessagesMarkdown t'
                 = take (S i) (allMessagesMarkdown t) ++ marks
                   ++ drop (S i) (allMessagesMarkdown t)
     | None => allMessages t' = allMessages t
               /\ allMessagesMarkdown t' = allMessagesMarkdown t
     end.
Proof.
  unfold spliceReplies.
  destruct (JS.findIndex _ _) as [i|] eqn:Hfind.
  - rewrite !bind_run.
    destruct (mapThrow_run (fun reply => formatMessage reply users replyIndent)
                replies st) as [(texts & -> & Htexts) | ->]; [|discriminate].
    rewrite !bind_run.
    destruct (mapThrow_run (fun reply => formatMessageMarkdown reply users "  ")
                replies st) as [(marks & -> & Hmarks) | ->]; [|discriminate].
    intros [= <- <-]. split; [done|]. split; [done|].
    destruct (findIndex_first _ _ _ Hfind) as [Hline Hfirst].
    split; [exact Hline|]. split; [exact Hfirst|].
    by exists texts, marks.
  - by intros [= <- <-].
Qed.

Lemma replies_go_after_first_matching_line_witness :
  exists t',
    fst (spliceReplies ∅ threadParent [threadParent] quotingTranscript initial)
      = Done t'
    /\ allMessages t'
       = ["[2024-01-01 09:00:00] Alice: root";
          "[2024-01-01 09:05:00] Bob: see 1704067200.000100";
          "  └─ [2024-01-01 09:00:00] U1: root";
          "[2024-01-01 09:10:00] Carol: bye"]%string.
Proof.
  assert (Hrun : exists t' st',
             spliceReplies ∅ threadParent [threadParent] quotingTranscript
               initial = (Done t', st'))
    by (eexists _, _; vm_compute; reflexivity).
  destruct Hrun as (t' & st' & Hrun). exists t'. rewrite Hrun.
  split; [reflexivity|].
  pose proof (replies_go_after_first_matching_line _ _ _ _ _ _ _ Hrun)
    as (_ & _ & Hshape).
  change (JS.findIndex _ (allMessages quotingTranscript)) with (Some 1%nat)
    in Hshape.
  destruct Hshape as (_ & _ & texts & marks & Htexts & _ & -> & _).
  apply Forall2_cons_inv_l in Htexts as (text & rest & Htext & Hrest & ->).
  apply Forall2_nil_inv_l in Hrest as ->.
  vm_compute in Htext. by injection Htext as <-.
Defined.

Lemma spliceReplies_lockstep (users : gmap string string) (msg : message)
  (replies : list message) (t t' : transcript) (st st' : state) :
  spliceReplies users msg replies t st = (Done t', st') ->
  length (allMessages t) = length (allMessagesMarkdown t) ->
  Z.of_nat (length (allMessages t)) <= totalMessageCount t ->
  length (allMessages t') = length (allMessagesMarkdown t')
  /\ Z.of_nat (length (allMessages t')) <= totalMessageCount t'.
Proof.
  intros Hrun Hlock Hcount. revert Hrun. unfold spliceReplies.
  destruct (JS.findIndex _ _) as [i|].
  - rewrite !bind_run.
    destruct (mapThrow_run (fun reply => formatMessage reply users replyIndent)
                replies st) as [(texts & -> & Htexts) | ->]; [|discriminate].
    rewrite !bind_run.
    destruct (mapThrow_run (fun reply => formatMessageMarkdown reply users "  ")
                replies st) as [(marks & -> & Hmarks) | ->]; [|discriminate].
    intros [= <- _]. apply Forall2_length in Htexts, Hmarks.
    unfold JS.splice. simpl.
    rewrite !length_app, !length_take, !length_drop. lia.
  - intros [= <- _]. simpl. lia.
Qed.

Lemma threadLoop_lockstep (client : remote) (channelId : string)
  (users : gmap string string) (rest : list message) :
  forall (i n : Z) (t t' : transcript) (st st' : state),
    threadLoop client channelId users rest i n t st = (Done t', st') ->
    length (allMessages t) = length (allMessagesMarkdown t) ->
    Z.of_nat (length (allMessages t)) <= totalMessageCount t ->
    length (allMessages t') = length (allMessagesMarkdown t')
    /\ Z.of_nat (length (allMessages t')) <= totalMessageCount t'.
Proof.
  induction rest as [|msg rest IH]; intros i n t t' st st' Hloop Hlock Hcount.
  - by injection Hloop as <- _.
  - apply threadLoop_step in Hloop
      as (replies & st1 & t1 & _ & Hsplice & Hrest).
    destruct (spliceReplies_lockstep _ _ _ _ _ _ _ Hsplice Hlock Hcount).
    by eapply IH.
Qed.

(** After assembly the two renderings have the same number of lines,
    every primary message has its line, and the reported count is never
    below the number of lines. *)
Theorem transcripts_in_lockstep (client : remote) (channelId : string)
  (users : gmap string string) (messages : list message) (skipThreads : bool)
  (t : transcript) (st st' : state) :
  assemble client channelId users messages skipThreads st = (Done t, st') ->
  length (allMessages t) = length (allMessagesMarkdown t)
  /\ (length messages <= length (allMessages t))%nat
  /\ Z.of_nat (length (allMessages t)) <= totalMessageCount t.
Proof.
  intros Hrun.
  destruct (assemble_top_level _ _ _ _ _ _ _ _ Hrun) as (lines & Hlines & Hsub).
  apply Forall2_length in Hlines. apply sublist_length in Hsub.
  cut (length (allMessages t) = length (allMessagesMarkdown t)
       /\ Z.of_nat (length (allMessages t)) <= totalMessageCount t);
    [intros []; repeat split; [done | lia | done]|].
  clear lines Hlines Hsub. revert Hrun. unfold assemble. rewrite !bind_run.
  destruct (mapThrow_run (fun msg => formatMessage msg users "") messages st)
    as [(texts & -> & Htexts) | ->]; [|discriminate].
  rewrite !bind_run.
  destruct (mapThrow_run (fun msg => formatMessageMarkdown msg users "")
              messages st) as [(marks & -> & Hmarks) | ->]; [|discriminate].
  apply Forall2_length in Htexts, Hmarks.
  destruct ((0 <? _) && negb skipThreads).
  - rewrite !bind_run. unfold respond at 1. rewrite emit_run, bind_run.
    destruct (threadLoop _ _ _ _ _ _ _ _) as [[t'| |] st1] eqn:Hloop;
      try discriminate.
    rewrite !bind_run. unfold respond. rewrite emit_run. intros [= <- _].
    apply threadLoop_lockstep in Hloop; simpl; [done | lia | lia].
  - destruct (skipThreads && _).
    + rewrite !bind_run. unfold respond. rewrite emit_run.
      intros [= <- _]. simpl. lia.
    + intros [= <- _]. simpl. lia.
Qed.

Lemma transcripts_in_lockstep_witness :
  exists t st',
    assemble twoReplies "C1" ∅ [threadParent] false initial = (Done t, st')
    /\ length (allMessages t) = length (allMessagesMarkdown t).
Proof.
  assert (Hrun : exists t st',
             assemble twoReplies "C1" ∅ [threadParent] false initial
             = (Done t, st'))
    by (eexists _, _; vm_compute; reflexivity).
  destruct Hrun as (t & st' & Hrun). exists t, st'. split; [exact Hrun|].
  apply (transcripts_in_lockstep _ _ _ _ _ _ _ _ Hrun).
Defined.

(** With the skip flag no thread is fetched: the transcripts are the
    renderings of the primary messages, the count is their number, the only
    notice is the one about the skipped threads (sent when there are any),
    and the replies endpoint is not called.  The only other outcome is the
    range error of a malformed [ts]. *)
Theorem skipping_threads_fetches_nothing (client : remote) (channelId : string)
  (users : gmap string string) (messages : list message) (st : state) :
  let n := Z.of_nat (length (filter (fun msg => isThreadParent msg = true)
                                    messages)) in
  (exists texts marks,
      Forall2 (fun msg line => formatMessage msg users "" = Some line)
              messages texts
      /\ Forall2 (fun msg line => formatMessageMarkdown msg users "" = Some line)
                 messages marks
      /\ assemble client channelId users messages true st
         = (Done (mkTranscript texts marks (Z.of_nat (length messages))),
            mkState (trace st ++ (if 0 <? n then [Respond (ThreadsSkipped n)]
                                  else []))
                    (historyCalls st) (repliesCalls st)))
  \/ assemble client channelId users messages true st = (Throw rangeError, st).
Proof.
  intros n. unfold assemble. rewrite !bind_run.
  destruct (mapThrow_run (fun msg => formatMessage msg users "") messages st)
    as [(texts & -> & Htexts) | ->]; [|by right].
  rewrite !bind_run.
  destruct (mapThrow_run (fun msg => formatMessageMarkdown msg users "")
              messages st) as [(marks & -> & Hmarks) | ->]; [|by right].
  left. exists texts, marks. split; [done|]. split; [done|].
  fold n. rewrite andb_false_r. simpl.
  destruct (0 <? n); [reflexivity|].
  destruct st. simpl. by rewrite app_nil_r.
Qed.

(** ** Throttling of the replies endpoint *)

Lemma throttledFrom_weaken (slept : bool) (events : list event) :
  throttledFrom false events = true -> throttledFrom slept events = true.
Proof. destruct events as [|[] ?]; simpl; try done. Qed.

Lemma throttledFrom_app (slept : bool) (xs ys : list event) :
  throttledFrom slept xs = true -> throttledFrom false ys = true ->
  throttledFrom slept (xs ++ ys) = true.
Proof.
  revert slept. induction xs as [|e xs IH]; intros slept Hxs Hys; simpl.
  - by apply throttledFrom_weaken.
  - destruct e; simpl in *; try by apply IH.
    apply andb_true_iff in Hxs as [-> Hxs]. simpl. by apply IH.
Qed.

Lemma getThreadReplies_throttled (client : remote) (channelId threadTs : string)
  (st : state) :
  exists replies st' events,
    getThreadReplies client channelId threadTs st = (Done replies, st')
    /\ trace st' = trace st ++ events
    /\ throttledFrom false events = true
    /\ historyCalls st' = historyCalls st
    /\ (repliesCalls st + 1 <= repliesCalls st' <= repliesCalls st + 2)%nat.
Proof.
  destruct (replies_api client (repliesCalls st) threadTs) as [ms|e] eqn:Hcall.
  - eexists _, _, _. split; [by eapply getThreadReplies_returned|]. simpl.
    repeat split; lia.
  - destruct (decide (rateLimited e)) as [Hrate|Hrate].
    + eexists _, _, _. split; [by eapply getThreadReplies_limited|]. simpl.
      repeat split; lia.
    + eexists _, _, _. split; [by eapply getThreadReplies_failed|]. simpl.
      repeat split; lia.
Qed.

(** Over the thread loop every call of the replies endpoint comes right
    after a sleep, each thread costs one or two calls, and the history
    endpoint is not called. *)
Theorem reply_calls_are_throttled (client : remote) (channelId : string)
  (users : gmap string string) (rest : list message) :
  forall (i n : Z) (t t' : transcript) (st st' : state),
    threadLoop client channelId users rest i n t st = (Done t', st') ->
    throttledFrom false (emitted st st') = true
    /\ historyCalls st' = historyCalls st
    /\ (repliesCalls st + length rest <= repliesCalls st'
        <= repliesCalls st + 2 * length rest)%nat.
Proof.
  assert (Hgeneral : forall (i n : Z) (t t' : transcript) (st st' : state),
    threadLoop client channelId users rest i n t st = (Done t', st') ->
    exists events, trace st' = trace st ++ events
      /\ throttledFrom false events = true
      /\ historyCalls st' = historyCalls st
      /\ (repliesCalls st + length rest <= repliesCalls st'
          <= repliesCalls st + 2 * length rest)%nat).
  { induction rest as [|msg rest IH]; intros i n t t' st st' Hloop.
    - injection Hloop as <- <-. exists []. rewrite app_nil_r. simpl.
      repeat split; lia.
    - apply threadLoop_step in Hloop
        as (replies & st1 & t1 & Hfetch & _ & Hrest).
      destruct (getThreadReplies_throttled client channelId
                  (default "" (thread_ts msg)) st)
        as (replies' & st1' & ev1 & Hfetch' & Ht1 & Hth1 & Hh1 & Hr1).
      rewrite Hfetch in Hfetch'. injection Hfetch' as <- <-.
      apply IH in Hrest as (ev3 & Ht3 & Hth3 & Hh3 & Hr3).
      rewrite reportProgress_run in Ht3, Hh3, Hr3. simpl in Ht3, Hh3, Hr3.
      rewrite Ht1, <- !app_assoc in Ht3.
      eexists. split; [exact Ht3|]. split; [|split; [congruence | simpl; lia]].
      apply throttledFrom_app; [done|]. apply throttledFrom_app; [|done].
      by destruct (_ && _). }
  intros i n t t' st st' Hloop.
  apply Hgeneral in Hloop as (events & Htrace & Hth & Hh & Hr).
  unfold emitted. by rewrite Htrace, drop_app_length.
Qed.

Lemma reply_calls_are_throttled_witness :
  throttledFrom false
    (emitted initial
       (snd (threadLoop limitedOnce "C1" ∅ [threadParent] 0 1 emptyTranscript
               initial))) = true.
Proof.
  assert (Hrun : exists t' st',
             threadLoop limitedOnce "C1" ∅ [threadParent] 0 1 emptyTranscript
               initial = (Done t', st'))
    by (eexists _, _; vm_compute; reflexivity).
  destruct Hrun as (t' & st' & Hrun). rewrite Hrun.
  apply (reply_calls_are_throttled _ _ _ _ _ _ _ _ _ _ Hrun).
Defined.

(** ** The history calls of a fetch *)

Lemma fetchHistory_calls (client : remote) (channelId startTs endTs : string)
  (k : nat) (cursor : option string) (ps : list page) :
  pagesFrom client k cursor ps ->
  forall fuel messages st,
    historyCalls st = k -> (length ps <= fuel)%nat ->
    fetchHistory fuel client channelId startTs endTs cursor messages st
    = (Done (messages ++ messagesOf ps),
       mkState (trace st ++ historyCallsFor channelId startTs endTs cursor ps)
               (k + length ps) (repliesCalls st)).
Proof.
  induction 1 as [k cursor p Hcall Hstop | k cursor p ps Hcall Hnext _ IH];
    intros fuel messages st Hk Hfuel.
  - destruct fuel as [|fuel]; [simpl in Hfuel; lia|].
    simpl. unfold conversationsHistory. run_monad.
    rewrite Hk, Hcall. simpl. rewrite Hstop.
    unfold messagesOf. simpl. rewrite app_nil_r. do 2 f_equal. lia.
  - destruct fuel as [|fuel]; [simpl in Hfuel; lia|].
    simpl. unfold conversationsHistory. run_monad.
    rewrite Hk, Hcall. simpl. rewrite Hnext.
    rewrite (IH fuel _ (mkState (trace st ++ [CallHistory channelId startTs
                                                endTs cursor])
                                (S k) (repliesCalls st)))
      by (simpl in *; lia || reflexivity).
    unfold messagesOf. simpl. rewrite <- !app_assoc. simpl.
    do 2 f_equal. lia.
Qed.



(** A window without messages ends the export after the history fetch
    with the notice that nothing was found: no user, channel or thread is
    looked up and nothing is written. *)
Theorem empty_window_stops_after_fetch (client : remote) (cmd : command)
  (skipThreads : bool) (startDate endDate : Z) (ps : list page) (fuel : nat)
  (st : state) :
  pagesFrom client (historyCalls st) None ps ->
  (length ps <= fuel)%nat ->
  messagesOf ps = [] ->
  exportWindow fuel client cmd skipThreads startDate endDate st
  = (Done tt,
     mkState (trace st
              ++ Respond Exporting
                 :: historyCallsFor (channel_id cmd)
                      (pretty (JS.floor_div startDate 1000))
                      (pretty (JS.floor_div endDate 1000)) None ps
              ++ [Respond NoMessages])
             (historyCalls st + length ps) (repliesCalls st)).
Proof.
  intros Hpages Hfuel Hempty. unfold exportWindow.
  rewrite bind_run. unfold respond at 1. rewrite emit_run, bind_run.
  rewrite (fetchHistory_calls _ _ _ _ _ _ _ Hpages fuel []) by done.
  simpl. rewrite Hempty. unfold respond. rewrite emit_run. simpl.
  by rewrite <- !app_assoc.
Qed.

Lemma empty_window_stops_after_fetch_witness :
  exportWindow 1 nothingInRange (mkCommand "2024-01-01 2024-01-31" "C1") false
    1704034800000 1706626800000 initial
  = (Done tt,
     mkState [Respond Exporting;
              CallHistory "C1" "1704034800" "1706626800" None;
              Respond NoMessages] 1 0).
Proof.
  apply (empty_window_stops_after_fetch nothingInRange
           (mkCommand "2024-01-01 2024-01-31" "C1") false 1704034800000
           1706626800000 [mkPage (Some []) None] 1 initial).
  - by apply pages_last.
  - simpl. lia.
  - reflexivity.
Defined.

Lemma fetchHistory_failure (client : remote) (channelId startTs endTs : string)
  (e : error) (k : nat) (cursor : option string) (ps : list page)
  (last : option string) :
  pagesThenFailure client e k cursor ps last ->
  forall fuel messages st,
    historyCalls st = k -> (length ps < fuel)%nat ->
    fetchHistory fuel client channelId startTs endTs cursor messages st
    = (Throw e,
       mkState (trace st ++ historyCallsFor channelId startTs endTs cursor ps
                ++ [CallHistory channelId startTs endTs last])
               (k + length ps + 1) (repliesCalls st)).
Proof.
  induction 1 as [k cursor Hcall | k cursor p ps last Hcall Hnext _ IH];
    intros fuel messages st Hk Hfuel.
  - destruct fuel as [|fuel]; [simpl in Hfuel; lia|].
    simpl. unfold conversationsHistory. run_monad.
    rewrite Hk, Hcall. simpl. do 2 f_equal. lia.
  - destruct fuel as [|fuel]; [simpl in Hfuel; lia|].
    simpl. unfold conversationsHistory. run_monad.
    rewrite Hk, Hcall. simpl. rewrite Hnext.
    rewrite (IH fuel _ (mkState (trace st ++ [CallHistory channelId startTs
                                                endTs cursor])
                                (S k) (repliesCalls st)))
      by (simpl in *; lia || reflexivity).
    simpl. rewrite <- !app_assoc. simpl. do 2 f_equal. lia.
Qed.

(** A history call that throws is fatal: the pages fetched so far are
    dropped, the failure is classified and reported, and nothing else
    happens: no user, channel or thread lookup, no file, no upload. *)
Theorem history_failure_is_fatal (client : remote) (cmd : command)
  (startDateStr endDateStr : string) (rest : list string)
  (startDate endDate : Z) (e : error) (ps : list page) (last : option string)
  (fuel : nat) (st : state) :
  splitArgs (command_text cmd) = startDateStr :: endDateStr :: rest ->
  parseDateTime startDateStr = Some startDate ->
  parseDateTime endDateStr = Some endDate ->
  startDate < endDate ->
  pagesThenFailure client e (historyCalls st) None ps last ->
  (length ps < fuel)%nat ->
  let startTs := pretty (JS.floor_div startDate 1000) in
  let endTs := pretty (JS.floor_div endDate 1000) in
  processExportAsync fuel client cmd st
  = (Done tt,
     mkState (trace st
              ++ Respond Exporting
                 :: historyCallsFor (channel_id cmd) startTs endTs None ps
              ++ [CallHistory (channel_id cmd) startTs endTs last;
                  Respond (Failed (classify e))])
             (historyCalls st + length ps + 1) (repliesCalls st)).
Proof.
  intros Hargs Hstart Hend Hlt Hpages Hfuel startTs endTs.
  unfold processExportAsync, try_catch. rewrite Hargs. cbv beta iota zeta.
  rewrite Hstart, Hend.
  assert ((endDate <=? startDate) = false) as -> by (apply Z.leb_gt; lia).
  unfold exportWindow. rewrite bind_run. unfold respond at 1.
  rewrite emit_run, bind_run.
  rewrite (fetchHistory_failure _ _ _ _ _ _ _ _ _ Hpages fuel []) by done.
  unfold respond. rewrite emit_run. simpl.
  by rewrite <- !app_assoc.
Qed.

Lemma history_failure_is_fatal_witness :
  processExportAsync 5 failsOnSecondPage
    (mkCommand "2024-01-01 2024-01-31" "C1") initial
  = (Done tt,
     mkState [Respond Exporting;
              CallHistory "C1" "1704034800" "1706626800" None;
              CallHistory "C1" "1704034800" "1706626800" (Some "next"%string);
              Respond (Failed MissingScope)] 2 0).
Proof.
  apply (history_failure_is_fatal failsOnSecondPage
           (mkCommand "2024-01-01 2024-01-31" "C1")
           "2024-01-01" "2024-01-31" [] 1704034800000 1706626800000
           (mkError None None (Some "An API error occurred: missing_scope"%string))
           [mkPage (Some [threadParent]) (Some "next"%string)]
           (Some "next"%string) 5 initial);
    try reflexivity.
  - apply failure_later; [reflexivity | reflexivity |].
    by apply failure_now.
  - simpl. lia.
Defined.

(** ** The download and listing routes *)

Lemma list_ascii_append (a b : string) :
  list_ascii_of_string (a +:+ b)
  = list_ascii_of_string a ++ list_ascii_of_string b.
Proof.
  induction a as [|c a IH]; [done|].
  change (String c a +:+ b) with (String c (a +:+ b)). simpl. by rewrite IH.
Qed.

Lemma sanitizedName_append (a b : string) :
  sanitizedName (a +:+ b) <-> sanitizedName a /\ sanitizedName b.
Proof.
  unfold sanitizedName. rewrite list_ascii_append, forallb_app.
  apply andb_true_iff.
Qed.

Lemma matchFileName_sanitized (name extension : string) (seen : bool) :
  sanitizedName name ->
  matchFileName (name +:+ "." +:+ extension) seen
  = (seen || negb (String.eqb name ""))
    && (String.eqb extension "txt" || String.eqb extension "md").
Proof.
  revert seen. induction name as [|c name IH]; intros seen Hsafe.
  - change ("" +:+ "." +:+ extension) with (String "." extension). simpl.
    by rewrite orb_false_r.
  - change (String c name +:+ "." +:+ extension)
      with (String c (name +:+ "." +:+ extension)).
    unfold sanitizedName in Hsafe. simpl in Hsafe.
    apply andb_true_iff in Hsafe as [Hc Hsafe]. simpl. rewrite Hc.
    rewrite IH by done. by rewrite orb_true_r.
Qed.

Lemma matchFileName_shape (s : string) (seen : bool) :
  matchFileName s seen = true ->
  exists name extension,
    s = name +:+ "." +:+ extension
    /\ sanitizedName name
    /\ (seen = true \/ name <> ""%string)
    /\ (extension = "txt"%string \/ extension = "md"%string).
Proof.
  revert seen. induction s as [|c s IH]; intros seen; simpl; [discriminate|].
  destruct (isFileNameChar c) eqn:Hc.
  - intros Hmatch.
    destruct (IH true Hmatch) as (name & extension & -> & Hsafe & _ & Hext).
    exists (String c name), extension. repeat split; try done.
    + unfold sanitizedName. simpl. by rewrite Hc.
    + by right.
  - rewrite !andb_true_iff, orb_true_iff.
    intros [[Hdot Hseen] Hext]. apply Ascii.eqb_eq in Hdot as ->.
    exists ""%string, s. repeat split; [by left|].
    destruct Hext as [Hext | Hext]; apply String.eqb_eq in Hext; tauto.
Qed.

Lemma fileNameChar_not_separator (c : ascii) :
  isFileNameChar c = true -> c <> "/"%char /\ c <> "."%char /\ c <> "\"%char.
Proof. intros Hc. repeat split; intros ->; discriminate. Qed.

Lemma includes_cons (needle : string) (c : ascii) (s : string) :
  JS.includes needle (String c s)
  = String.prefix needle (String c s) || JS.includes needle s.
Proof. reflexivity. Qed.

Lemma prefix_other_char (a c : ascii) (rest s : string) :
  a <> c -> String.prefix (String a rest) (String c s) = false.
Proof.
  intros Hne. simpl. by destruct (ascii_dec a c).
Qed.

Lemma matchFileName_no_traversal (s : string) (seen : bool) :
  matchFileName s seen = true ->
  JS.includes "/" s = false /\ JS.includes ".." s = false
  /\ JS.includes "\" s = false.
Proof.
  revert seen. induction s as [|c s IH]; intros seen; [discriminate|].
  cbn [matchFileName]. destruct (isFileNameChar c) eqn:Hc.
  - intros Hmatch. destruct (IH true Hmatch) as (Hslash' & Hdot' & Hback').
    destruct (fileNameChar_not_separator c Hc) as (Hslash & Hdot & Hback).
    rewrite !includes_cons, Hslash', Hdot', Hback'.
    rewrite !prefix_other_char by congruence. done.
  - rewrite !andb_true_iff, orb_true_iff.
    intros [[Hdot _] Hext]. apply Ascii.eqb_eq in Hdot as ->.
    destruct Hext as [Hext | Hext]; apply String.eqb_eq in Hext as ->;
      by vm_compute.
Qed.

(** The download route serves a name only when it is a non-empty run of
    letters, digits, underscores and hyphens followed by [.txt] or [.md];
    such a name has no path separator and no [..], and the file sent is the
    one of that name directly below the exports directory. *)
Theorem download_serves_only_plain_names (exportsDir : string)
  (stored : string -> bool) (filename : string) :
  download exportsDir stored filename <> InvalidFilename ->
  (exists name extension,
      filename = name +:+ "." +:+ extension
      /\ sanitizedName name /\ name <> ""%string
      /\ (extension = "txt"%string \/ extension = "md"%string))
  /\ JS.includes "/" filename = false
  /\ JS.includes ".." filename = false
  /\ JS.includes "\" filename = false
  /\ forall path, download exportsDir stored filename = FileSent path ->
                  path = exportsDir +:+ "/" +:+ filename
                  /\ stored path = true.
Proof.
  unfold download. intros Hserved.
  destruct (matchFileName filename false) eqn:Hmatch;
    [|by rewrite orb_true_r in Hserved].
  split.
  - destruct (matchFileName_shape _ _ Hmatch)
      as (name & extension & -> & Hsafe & [Hseen | Hname] & Hext);
      [discriminate|].
    by exists name, extension.
  - destruct (matchFileName_no_traversal _ _ Hmatch) as (-> & -> & ->).
    repeat split; destruct (negb _); simpl in *; try done;
      destruct (stored _) eqn:Hstored; congruence.
Qed.

Lemma download_serves_only_plain_names_witness :
  download "exports" (fun _ => true) "general_20240101-20240131.txt"
    = FileSent "exports/general_20240101-20240131.txt"
  /\ JS.includes ".." "general_20240101-20240131.txt" = false.
Proof.
  split; [reflexivity|].
  apply (download_serves_only_plain_names "exports" (fun _ => true)
           "general_20240101-20240131.txt").
  discriminate.
Defined.

Lemma append_assoc (a b c : string) : (a +:+ b) +:+ c = a +:+ (b +:+ c).
Proof.
  induction a as [|x a IH]; [done|].
  change ((String x a +:+ b) +:+ c) with (String x ((a +:+ b) +:+ c)).
  by rewrite IH.
Qed.

Lemma digit_char_is_digit (d : Z) : isFileNameChar (JS.digit_char d) = true.
Proof.
  unfold JS.digit_char.
  pose proof (Z.mod_pos_bound d 10 ltac:(lia)) as Hr.
  assert (Hcases : d mod 10 = 0 \/ d mod 10 = 1 \/ d mod 10 = 2
                   \/ d mod 10 = 3 \/ d mod 10 = 4 \/ d mod 10 = 5
                   \/ d mod 10 = 6 \/ d mod 10 = 7 \/ d mod 10 = 8
                   \/ d mod 10 = 9) by lia.
  repeat destruct Hcases as [-> | Hcases]; try reflexivity.
  by rewrite Hcases.
Qed.

Lemma format_compact_sanitized (t : Z) :
  sanitizedName (DateFns.format_compact t)
  /\ String.length (DateFns.format_compact t) = 8%nat.
Proof.
  unfold DateFns.format_compact, DateFns.yyyy, DateFns.pad4, DateFns.pad2.
  generalize (DateFns.fieldsOfTime t). intros f.
  split.
  - unfold sanitizedName. rewrite !list_ascii_append.
    cbn [list_ascii_of_string forallb app]. by rewrite !digit_char_is_digit.
  - rewrite !append_length. reflexivity.
Qed.

Lemma matchFileName_long_tail (name tail : string) (seen : bool) :
  (3 < String.length tail)%nat ->
  matchFileName (name +:+ tail) seen = true -> sanitizedName name.
Proof.
  intros Htail. revert seen. induction name as [|c name IH]; intros seen;
    [done|].
  change (String c name +:+ tail) with (String c (name +:+ tail)).
  cbn [matchFileName]. unfold sanitizedName. simpl.
  destruct (isFileNameChar c); [by apply IH|].
  rewrite !andb_true_iff, orb_true_iff. intros [_ Hext].
  assert (Hlen : (3 < String.length (name +:+ tail))%nat)
    by (rewrite append_length; lia).
  destruct Hext as [Hext | Hext]; apply String.eqb_eq in Hext;
    rewrite Hext in Hlen; simpl in Hlen; lia.
Qed.

(** An exported file can be fetched through the download route exactly
    when the channel name consists of letters, digits, underscores and
    hyphens: the dates, the underscore and the hyphen of the base name never
    stand in the way. *)
Theorem exported_file_downloadable_iff (channelName : string)
  (jstStartDate jstEndDate : Z) (extension : string) :
  extension = "txt"%string \/ extension = "md"%string ->
  matchFileName
    (baseFileName channelName jstStartDate jstEndDate +:+ "." +:+ extension)
    false = true
  <-> sanitizedName channelName.
Proof.
  intros Hext.
  destruct (format_compact_sanitized jstStartDate) as [Hstart Hstartlen].
  destruct (format_compact_sanitized jstEndDate) as [Hend Hendlen].
  unfold baseFileName. split.
  - rewrite append_assoc.
    apply matchFileName_long_tail. rewrite !append_length, Hstartlen. simpl.
    lia.
  - intros Hsafe. rewrite matchFileName_sanitized.
    + destruct Hext as [-> | ->]; simpl; rewrite andb_true_r;
        apply negb_true_iff, String.eqb_neq; by destruct channelName.
    + rewrite !sanitizedName_append. repeat split; done.
Qed.

Lemma exported_file_downloadable_iff_witness :
  matchFileName
    (baseFileName "general" (DateFns.addHours 1704034800000 9)
       (DateFns.addHours 1706626800000 9) +:+ "." +:+ "txt") false = true.
Proof.
  apply (exported_file_downloadable_iff "general"
           (DateFns.addHours 1704034800000 9)
           (DateFns.addHours 1706626800000 9) "txt").
  - by left.
  - reflexivity.
Defined.

Lemma endsWith_append (a b : string) : endsWith (a +:+ b) b = true.
Proof.
  induction a as [|c a IH].
  - change ("" +:+ b) with b. destruct b; cbn [endsWith];
      by rewrite String.eqb_refl.
  - change (String c a +:+ b) with (String c (a +:+ b)).
    cbn [endsWith]. rewrite IH. apply orb_true_r.
Qed.

(** Every file the download route accepts is shown by the listing route
    when it is in the exports directory. *)
Theorem downloadable_files_are_listed (files : list string) (f : string) :
  In f files -> matchFileName f false = true -> In f (fileList files).
Proof.
  intros Hin Hmatch. unfold fileList.
  apply list_elem_of_In, list_elem_of_filter. split; [|by apply list_elem_of_In].
  destruct (matchFileName_shape _ _ Hmatch)
    as (name & extension & -> & _ & _ & [-> | ->]).
  - change ("." +:+ "txt") with ".txt"%string. by rewrite endsWith_append.
  - change ("." +:+ "md") with ".md"%string. rewrite endsWith_append.
    apply orb_true_r.
Qed.

Lemma downloadable_files_are_listed_witness :
  In "general_20240101-20240131.md"%string
     (fileList ["notes.log"; "general_20240101-20240131.md"]%string).
Proof.
  apply (downloadable_files_are_listed
           ["notes.log"; "general_20240101-20240131.md"]%string).
  - right. by left.
  - reflexivity.
Defined.

(** ** Date-only tokens *)



(** ** An export without threads, end to end *)





